(** * CCD/CDA XML Schema Validator: a shallow embedding of
      [ccd_xsd_validator.py] and the properties of its results, directory
      traversal, reports and exit status. *)

From Stdlib Require Import ZArith List String Ascii Bool Lia.
From Stdlib Require Import DecimalString.
From Stdlib Require DecimalFacts DecimalPos DecimalZ.
Import ListNotations.

Set Warnings "-register-all".

Local Open Scope string_scope.
Local Open Scope Z_scope.

(** ** Strings and small Python builtins *)

(** [str(n)] for an [int]. *)
Definition str_of_int (n : Z) : string :=
  NilZero.string_of_int (Z.to_int n).

(** [sep.join(xs)]. *)
Fixpoint join (sep : string) (xs : list string) : string :=
  match xs with
  | [] => ""
  | [x] => x
  | x :: rest => x ++ sep ++ join sep rest
  end.

(** [s * n] for a string [s]. *)
Fixpoint repeat_str (s : string) (n : nat) : string :=
  match n with
  | O => ""
  | S k => s ++ repeat_str s k
  end.

(** [len(xs)] is a Python [int]. *)
Definition len {A} (xs : list A) : Z := Z.of_nat (List.length xs).

(** [sum(1 for x in xs if p x)]. *)
Fixpoint sum_ones {A} (p : A -> bool) (xs : list A) : Z :=
  match xs with
  | [] => 0
  | x :: rest => (if p x then 1 else 0) + sum_ones p rest
  end.

(** [enumerate(xs, start)]. *)
Fixpoint enumerate {A} (xs : list A) (start : Z) : list (Z * A) :=
  match xs with
  | [] => []
  | x :: rest => (start, x) :: enumerate rest (start + 1)
  end.

(** [s.split(sep)] for a one-character separator: the pieces between
    occurrences of [sep], the current piece being accumulated in [cur]. *)
Fixpoint split_on (sep : ascii) (cur : string) (s : string) : list string :=
  match s with
  | EmptyString => [cur]
  | String c rest =>
      if Ascii.eqb c sep then cur :: split_on sep "" rest
      else split_on sep (cur ++ String c "") rest
  end.

(** ** Paths ([pathlib.PurePosixPath]) *)

Module Path.

(** A path is an anchor (the empty string, or a root of slashes) and its
    components. *)
Record t := mk { anchor : string; parts : list string }.

Definition is_component (s : string) : bool :=
  negb (String.eqb s "" || String.eqb s ".").

(** The root of a path string: two leading slashes are kept, any other
    number of them is one root. *)
Definition root_of (s : string) : string :=
  match s with
  | String "/" (String "/" (String "/" _)) => "/"
  | String "/" (String "/" _) => "//"
  | String "/" _ => "/"
  | _ => ""
  end.

(** [Path(s)]. *)
Definition of_str (s : string) : t :=
  {| anchor := root_of s;
     parts := filter is_component (split_on "/" "" s) |}.

(** [str(p)]. *)
Definition to_str (p : t) : string :=
  match anchor p, parts p with
  | "", [] => "."
  | a, ps => a ++ join "/" ps
  end.

(** [p.name]: the final component, if any. *)
Definition name (p : t) : string := last (parts p) "".

(** [p / rel] for relative components [rel]. *)
Definition joinpath (p : t) (rel : list string) : t :=
  {| anchor := anchor p; parts := parts p ++ rel |}.

(** [p.parent] when [p] has a final component. *)
Definition parent (p : t) : t :=
  {| anchor := anchor p; parts := removelast (parts p) |}.

End Path.

(** What [validate_file] is handed as [ccd_path]: a [str] (from [--file]) or
    a [Path] (from [glob]). *)
Inductive pathlike :=
| AsStr (s : string)
| AsPath (p : Path.t).

(** [str(ccd_path)], also what an f-string prints for it. *)
Definition str_of_pathlike (p : pathlike) : string :=
  match p with
  | AsStr s => s
  | AsPath q => Path.to_str q
  end.

(** ** The data model *)

(** One problem found in a document. Each constructor stands for one of the
    dict literals of [validate_file], with the keys that literal has. *)
Inductive ErrorRecord :=
| XmlSyntaxError (message : string) (line : option Z)
| SchemaValidationError (message : string) (line column : Z)
                        (domain level : string)
| FileNotFound (message : string)
| UnexpectedError (message : string).

(** [error['type']]. *)
Definition error_type (e : ErrorRecord) : string :=
  match e with
  | XmlSyntaxError _ _ => "XML_SYNTAX_ERROR"
  | SchemaValidationError _ _ _ _ _ => "SCHEMA_VALIDATION_ERROR"
  | FileNotFound _ => "FILE_NOT_FOUND"
  | UnexpectedError _ => "UNEXPECTED_ERROR"
  end.

(** [error['message']]. *)
Definition error_message (e : ErrorRecord) : string :=
  match e with
  | XmlSyntaxError m _ => m
  | SchemaValidationError m _ _ _ _ => m
  | FileNotFound m => m
  | UnexpectedError m => m
  end.

(** The result of validating one document: the dict built at the top of
    [validate_file]. *)
Record ValidationResult := mkResult {
  file : string;
  valid : bool;
  well_formed : bool;
  errors : list ErrorRecord;
  timestamp : string
}.

Definition set_valid (b : bool) (r : ValidationResult) : ValidationResult :=
  mkResult (file r) b (well_formed r) (errors r) (timestamp r).

Definition set_well_formed (b : bool) (r : ValidationResult)
  : ValidationResult :=
  mkResult (file r) (valid r) b (errors r) (timestamp r).

(** [result['errors'].append(e)]. *)
Definition append_error (e : ErrorRecord) (r : ValidationResult)
  : ValidationResult :=
  mkResult (file r) (valid r) (well_formed r) (errors r ++ [e]) (timestamp r).

(** ** Exceptions *)

(** Instances of [Exception] that the collaborators (file system, parser,
    schema engine) raise. [XMLSyntaxError] carries [str(e)] and its [lineno]
    attribute: absent, [None] or an [int]. *)
Inductive exception :=
| FileNotFoundError (msg : string)
| XMLSyntaxError (msg : string) (lineno : option (option Z))
| OtherException (msg : string).

(** [str(e)]. *)
Definition str_of_exception (e : exception) : string :=
  match e with
  | FileNotFoundError m => m
  | XMLSyntaxError m _ => m
  | OtherException m => m
  end.

(** What can be raised: an [Exception], or [SystemExit] from [sys.exit],
    which [except Exception] does not catch. *)
Inductive raised :=
| Exc (e : exception)
| SystemExit (code : Z).

(** ** The environment *)

(** A [datetime], seen through the two renderings the program uses. *)
Record datetime := mkDatetime {
  isoformat : string;
  strftime_YmdHMS : string
}.

(** A parsed document handle. *)
Inductive document := Document (id : string).

(** One entry of the schema engine's diagnostic log. *)
Record LogEntry := mkLogEntry {
  log_message : string;
  log_line : Z;
  log_column : Z;
  log_domain_name : string;
  log_level_name : string
}.

(** What [schema.validate(doc)] does: return a verdict and leave a log behind,
    or raise. *)
Inductive validate_outcome :=
| Verdict (ok : bool) (error_log : list LogEntry)
| ValidateRaises (e : exception).

(** A compiled [etree.XMLSchema]. *)
Record XMLSchema := mkSchema {
  schema_validate : document -> validate_outcome
}.

(** A directory entry: a file, or a directory with its entries in listing
    order. *)
Inductive entry :=
| File (name : string)
| Dir (name : string) (children : list entry).

Definition entry_name (e : entry) : string :=
  match e with
  | File n => n
  | Dir n _ => n
  end.

(** The world outside the program. *)
Record World := mkWorld {
  (** successive readings of [datetime.now()] *)
  clock : nat -> datetime;
  (** [open(path, 'rb')]: the exception raised, if any *)
  open_rb : string -> option exception;
  (** [etree.parse] of the file opened at a path *)
  parse : string -> document + exception;
  (** opening, parsing and compiling the schema at a path *)
  compile_schema : string -> XMLSchema + exception;
  (** the entries of the directory at a path, none if there is no such
      directory *)
  listdir : string -> list entry;
  (** [open(path, 'w')] and the write that follows *)
  open_w : string -> option exception
}.

(** ** Computations: state and exceptions *)

(** What the program does to the outside, in order. *)
Inductive event :=
| EvOpen (path : string)
| EvParse (path : string)
| EvSchemaValidate (doc : document)
| EvPrint (text : string)
| EvWrite (path : string) (content : string).

(** The mutable state of a run: the number of clock readings so far, the
    schema object's [error_log], and the events so far. *)
Record Sys := mkSys {
  ticks : nat;
  schema_error_log : list LogEntry;
  trace : list event
}.

Definition initial_sys : Sys := mkSys 0 [] [].

Inductive Res (A : Type) :=
| Val (a : A)
| Raise (e : raised).
Arguments Val {A} a.
Arguments Raise {A} e.

(** A computation over a state [S] that returns or raises; the state survives
    a raise, as mutations made before an exception do. *)
Definition Comp (S A : Type) : Type := S -> Res A * S.

Definition ret {S A} (a : A) : Comp S A := fun s => (Val a, s).

Definition bind {S A B} (c : Comp S A) (k : A -> Comp S B) : Comp S B :=
  fun s =>
    match c s with
    | (Val a, s') => k a s'
    | (Raise e, s') => (Raise e, s')
    end.

Definition raise {S A} (e : raised) : Comp S A := fun s => (Raise e, s).

Definition get {S} : Comp S S := fun s => (Val s, s).

Definition modify {S} (f : S -> S) : Comp S unit := fun s => (Val tt, f s).

Declare Scope comp_scope.
Delimit Scope comp_scope with comp.
Notation "x <- c ;; k" := (bind c (fun x => k))
  (at level 61, c at next level, right associativity) : comp_scope.
Notation "c ;; k" := (bind c (fun _ => k))
  (at level 61, right associativity) : comp_scope.
Local Open Scope comp_scope.

(** [try: body except ...: handler]: [handler e] is [None] when no clause
    matches [e], which then propagates. *)
Definition try_except {S A} (body : Comp S A)
    (handler : raised -> option (Comp S A)) : Comp S A :=
  fun s =>
    match body s with
    | (Val a, s') => (Val a, s')
    | (Raise e, s') =>
        match handler e with
        | Some h => h s'
        | None => (Raise e, s')
        end
    end.

(** [for x in xs: body x]. *)
Fixpoint for_each {S A} (xs : list A) (body : A -> Comp S unit)
  : Comp S unit :=
  match xs with
  | [] => ret tt
  | x :: rest => body x ;; for_each rest body
  end.

(** A local variable holding a mutable object, next to the system state. *)
Definition with_local {S L A} (init : L) (c : Comp (L * S) A) : Comp S A :=
  fun s =>
    match c (init, s) with
    | (r, (_, s')) => (r, s')
    end.

Definition lift {S L A} (c : Comp S A) : Comp (L * S) A :=
  fun ls =>
    match c (snd ls) with
    | (r, s') => (r, (fst ls, s'))
    end.

Definition get_local {S L} : Comp (L * S) L :=
  fun ls => (Val (fst ls), ls).

Definition modify_local {S L} (f : L -> L) : Comp (L * S) unit :=
  fun ls => (Val tt, (f (fst ls), snd ls)).

(** *** Primitive effects *)

Definition emit (e : event) : Comp Sys unit :=
  modify (fun s => mkSys (ticks s) (schema_error_log s) (trace s ++ [e])).

(** [datetime.now()]. *)
Definition now (w : World) : Comp Sys datetime :=
  fun s =>
    (Val (clock w (ticks s)),
     mkSys (S (ticks s)) (schema_error_log s) (trace s)).

(** [print(text, end=e)]. *)
Definition print_end (text e : string) : Comp Sys unit :=
  emit (EvPrint (text ++ e)).

(** [print(text)]. *)
Definition print (text : string) : Comp Sys unit :=
  print_end text (String (ascii_of_nat 10) "").

(** [sys.exit(code)]. *)
Definition sys_exit {A} (code : Z) : Comp Sys A := raise (SystemExit code).

(** [open(path, 'rb')]. *)
Definition open_read (w : World) (path : string) : Comp Sys unit :=
  emit (EvOpen path) ;;
  match open_rb w path with
  | None => ret tt
  | Some e => raise (Exc e)
  end.

(** [etree.parse(xml_file)] for the file opened at [path]. *)
Definition etree_parse (w : World) (path : string) : Comp Sys document :=
  emit (EvParse path) ;;
  match parse w path with
  | inl doc => ret doc
  | inr e => raise (Exc e)
  end.

(** [schema.validate(doc)]: the verdict, the log being left on the schema
    object. *)
Definition validate_doc (schema : XMLSchema) (doc : document)
  : Comp Sys bool :=
  emit (EvSchemaValidate doc) ;;
  match schema_validate schema doc with
  | Verdict ok log =>
      modify (fun s => mkSys (ticks s) log (trace s)) ;;
      ret ok
  | ValidateRaises e => raise (Exc e)
  end.

(** [schema.error_log]. *)
Definition read_error_log : Comp Sys (list LogEntry) :=
  s <- get ;; ret (schema_error_log s).

(** ** [CCDValidator.validate_file] *)

(** The record appended for one entry of the schema's log. *)
Definition schema_error_of (error : LogEntry) : ErrorRecord :=
  SchemaValidationError (log_message error) (log_line error)
    (log_column error) (log_domain_name error) (log_level_name error).

(** [e.lineno if hasattr(e, 'lineno') else None]. *)
Definition lineno_or_None (lineno : option (option Z)) : option Z :=
  match lineno with
  | Some l => l
  | None => None
  end.

(** The body of the inner [try]: [Some doc] when parsing succeeded, [None]
    when the [except] clause ran and returned [result]. *)
Definition parse_step (w : World) (path : string)
  : Comp (ValidationResult * Sys) (option document) :=
  try_except
    (doc <- lift (etree_parse w path) ;;
     modify_local (set_well_formed true) ;;
     ret (Some doc))
    (fun e =>
       match e with
       | Exc (XMLSyntaxError msg lineno) =>
           Some (modify_local
                   (append_error (XmlSyntaxError msg (lineno_or_None lineno))) ;;
                 ret None)
       | _ => None
       end).

(** The body of the loop over [schema.error_log]. *)
Definition record_schema_error (error : LogEntry)
  : Comp (ValidationResult * Sys) unit :=
  modify_local (append_error (schema_error_of error)).

(** The body of the outer [try]. *)
Definition validate_body (w : World) (schema : XMLSchema) (path : string)
  : Comp (ValidationResult * Sys) unit :=
  lift (open_read w path) ;;
  parsed <- parse_step w path ;;
  match parsed with
  | None => ret tt
  | Some doc =>
      ok <- lift (validate_doc schema doc) ;;
      if ok then modify_local (set_valid true)
      else
        log <- lift read_error_log ;;
        for_each log record_schema_error
  end.

Definition validate_file (w : World) (schema : XMLSchema) (ccd_path : pathlike)
  : Comp Sys ValidationResult :=
  stamp <- now w ;;
  with_local
    {| file := str_of_pathlike ccd_path;
       valid := false;
       well_formed := false;
       errors := [];
       timestamp := isoformat stamp |}
    (try_except
       (validate_body w schema (str_of_pathlike ccd_path))
       (fun e =>
          match e with
          | Exc (FileNotFoundError _) =>
              Some (modify_local
                      (append_error
                         (FileNotFound
                            ("File not found: " ++ str_of_pathlike ccd_path))))
          | Exc e' =>
              Some (modify_local
                      (append_error (UnexpectedError (str_of_exception e'))))
          | SystemExit _ => None
          end) ;;
     get_local).

(** ** Directory traversal ([Path.glob]) *)

(** [fnmatch.fnmatchcase(name, pat)] for patterns made of literal characters,
    [*] and [?], the comparison being case-sensitive as for a POSIX path. *)
Fixpoint fnmatch (pat : string) : string -> bool :=
  match pat with
  | EmptyString => fun name =>
      match name with
      | EmptyString => true
      | String _ _ => false
      end
  | String "*" pat' =>
      fix star (name : string) : bool :=
        fnmatch pat' name
        || match name with
           | EmptyString => false
           | String _ name' => star name'
           end
  | String "?" pat' => fun name =>
      match name with
      | EmptyString => false
      | String _ name' => fnmatch pat' name'
      end
  | String c pat' => fun name =>
      match name with
      | EmptyString => false
      | String d name' => Ascii.eqb c d && fnmatch pat' name'
      end
  end.

(** One component of a glob pattern. *)
Inductive pattern_part :=
| Recursive
| Wildcard (pat : string).

Definition pattern_parts (pattern : string) : list pattern_part :=
  map (fun s => if String.eqb s "**" then Recursive else Wildcard s)
      (split_on "/" "" pattern).

(** The paths, relative to the directory [e] whose own relative path is
    [prefix], that the pattern components select, in the order pathlib
    yields them. A [Wildcard] component selects the entries of the directory
    whose name matches, of any kind; [Recursive] selects the directory itself
    and every directory below it, parents before children. *)
Fixpoint select_from (e : entry) : list pattern_part -> list string
                                    -> list (list string) :=
  fix go (parts : list pattern_part) (prefix : list string)
    : list (list string) :=
    match parts with
    | [] => [prefix]
    | part :: rest =>
        match e with
        | File _ => []
        | Dir _ children =>
            match part with
            | Wildcard pat =>
                flat_map
                  (fun c =>
                     if fnmatch pat (entry_name c)
                     then select_from c rest (prefix ++ [entry_name c])
                     else [])
                  children
            | Recursive =>
                (go rest prefix
                 ++ flat_map
                      (fun c =>
                         match c with
                         | Dir _ _ =>
                             select_from c parts (prefix ++ [entry_name c])
                         | File _ => []
                         end)
                      children)%list
            end
        end
    end.

(** The relative paths [directory.glob(pattern)] selects. *)
Definition glob_relative (w : World) (directory : Path.t) (pattern : string)
  : list (list string) :=
  select_from (Dir (Path.name directory) (listdir w (Path.to_str directory)))
              (pattern_parts pattern) [].

(** [list(directory.glob(pattern))]. *)
Definition glob (w : World) (directory : Path.t) (pattern : string)
  : list Path.t :=
  map (Path.joinpath directory) (glob_relative w directory pattern).

(** ** [CCDValidator.validate_directory] *)

Definition nl : string := String (ascii_of_nat 10) "".

Definition glob_pattern (recursive : bool) : string :=
  if recursive then "**/*.xml" else "*.xml".

(** The body of the loop over [xml_files], [results] being the local list. *)
Definition validate_one (w : World) (schema : XMLSchema) (xml_file : Path.t)
  : Comp (list ValidationResult * Sys) unit :=
  lift (print_end ("Validating: " ++ Path.name xml_file ++ "... ") "") ;;
  result <- lift (validate_file w schema (AsPath xml_file)) ;;
  lift (if valid result then print "✓ VALID"
        else if well_formed result
             then print ("✗ INVALID (" ++ str_of_int (len (errors result))
                         ++ " errors)")
             else print "✗ NOT WELL-FORMED") ;;
  modify_local (fun results => (results ++ [result])%list).

Definition validate_directory (w : World) (schema : XMLSchema)
    (directory_path : string) (recursive : bool)
  : Comp Sys (list ValidationResult) :=
  with_local []
    (let directory := Path.of_str directory_path in
     let pattern := glob_pattern recursive in
     let xml_files := glob w directory pattern in
     match xml_files with
     | [] =>
         lift (print ("No XML files found in " ++ directory_path)) ;;
         get_local
     | _ =>
         lift (print (nl ++ "Validating " ++ str_of_int (len xml_files)
                      ++ " file(s)..." ++ nl)) ;;
         for_each xml_files (validate_one w schema) ;;
         get_local
     end).

(** ** Python values and [json.dumps] *)

(** The values a report is made of. A dict keeps its keys in insertion
    order. *)
Inductive pyval :=
| PyNone
| PyBool (b : bool)
| PyInt (n : Z)
| PyStr (s : string)
| PyList (items : list pyval)
| PyDict (fields : list (string * pyval)).

Definition py_of_option_int (v : option Z) : pyval :=
  match v with
  | Some n => PyInt n
  | None => PyNone
  end.

(** The dict an [ErrorRecord] stands for, keys in the order of its literal. *)
Definition error_to_py (e : ErrorRecord) : pyval :=
  match e with
  | XmlSyntaxError m l =>
      PyDict [("type", PyStr "XML_SYNTAX_ERROR");
              ("message", PyStr m);
              ("line", py_of_option_int l)]
  | SchemaValidationError m l c d v =>
      PyDict [("type", PyStr "SCHEMA_VALIDATION_ERROR");
              ("message", PyStr m);
              ("line", PyInt l);
              ("column", PyInt c);
              ("domain", PyStr d);
              ("level", PyStr v)]
  | FileNotFound m =>
      PyDict [("type", PyStr "FILE_NOT_FOUND"); ("message", PyStr m)]
  | UnexpectedError m =>
      PyDict [("type", PyStr "UNEXPECTED_ERROR"); ("message", PyStr m)]
  end.

(** The dict a [ValidationResult] stands for. *)
Definition result_to_py (r : ValidationResult) : pyval :=
  PyDict [("file", PyStr (file r));
          ("valid", PyBool (valid r));
          ("well_formed", PyBool (well_formed r));
          ("errors", PyList (map error_to_py (errors r)));
          ("timestamp", PyStr (timestamp r))].

(** [d[key]] and [d.get(key)] on the fields of a dict. *)
Fixpoint lookup (key : string) (fields : list (string * pyval))
  : option pyval :=
  match fields with
  | [] => None
  | (k, v) :: rest => if String.eqb k key then Some v else lookup key rest
  end.

Definition dq : string := String (ascii_of_nat 34) "".
Definition backslash : string := String (ascii_of_nat 92) "".

Definition hex_digit (n : nat) : string :=
  match String.get n "0123456789abcdef" with
  | Some c => String c ""
  | None => ""
  end.

(** How [json.dumps] writes one character of a string with [ensure_ascii]:
    characters are bytes here, so one outside printable ASCII is written as
    [\u00XX]. *)
Definition escape_char (c : ascii) : string :=
  let n := nat_of_ascii c in
  if Nat.eqb n 34 then backslash ++ dq
  else if Nat.eqb n 92 then backslash ++ backslash
  else if Nat.eqb n 10 then backslash ++ "n"
  else if Nat.eqb n 13 then backslash ++ "r"
  else if Nat.eqb n 9 then backslash ++ "t"
  else if Nat.eqb n 8 then backslash ++ "b"
  else if Nat.eqb n 12 then backslash ++ "f"
  else if (Nat.leb 32 n && Nat.leb n 126)%bool then String c ""
  else backslash ++ "u00" ++ hex_digit (Nat.div n 16) ++ hex_digit (Nat.modulo n 16).

Fixpoint escape_string (s : string) : string :=
  match s with
  | EmptyString => ""
  | String c rest => escape_char c ++ escape_string rest
  end.

Definition json_string (s : string) : string := dq ++ escape_string s ++ dq.

(** A line break followed by the indentation of a nesting level, two spaces
    per level. *)
Definition newline_indent (level : nat) : string :=
  nl ++ repeat_str "  " level.

(** [json.dumps(v, indent=2)], [v] being nested [level] deep. *)
Fixpoint json_dumps_at (level : nat) (v : pyval) : string :=
  match v with
  | PyNone => "null"
  | PyBool true => "true"
  | PyBool false => "false"
  | PyInt n => str_of_int n
  | PyStr s => json_string s
  | PyList [] => "[]"
  | PyList items =>
      "[" ++ newline_indent (S level)
      ++ join ("," ++ newline_indent (S level))
              (map (json_dumps_at (S level)) items)
      ++ newline_indent level ++ "]"
  | PyDict [] => "{}"
  | PyDict fields =>
      "{" ++ newline_indent (S level)
      ++ join ("," ++ newline_indent (S level))
              (map (fun kv => json_string (fst kv) ++ ": "
                              ++ json_dumps_at (S level) (snd kv))
                   fields)
      ++ newline_indent level ++ "}"
  end.

Definition json_dumps (v : pyval) : string := json_dumps_at 0 v.

(** ** The reports *)

(** Truth value of what [error.get('line')] or [error.get('column')]
    returns: [None] when the key is absent or holds [None], else an [int]. *)
Definition truthy (v : option Z) : bool :=
  match v with
  | Some n => negb (n =? 0)
  | None => false
  end.

(** [error.get('line')]. *)
Definition error_get_line (e : ErrorRecord) : option Z :=
  match e with
  | XmlSyntaxError _ l => l
  | SchemaValidationError _ l _ _ _ => Some l
  | FileNotFound _ => None
  | UnexpectedError _ => None
  end.

(** [error.get('column')]. *)
Definition error_get_column (e : ErrorRecord) : option Z :=
  match e with
  | SchemaValidationError _ _ c _ _ => Some c
  | _ => None
  end.

(** [f"{v}"] for a truthy [v]. *)
Definition show (v : option Z) : string :=
  match v with
  | Some n => str_of_int n
  | None => "None"
  end.

(** The three counts a report shows. *)
Record Summary := mkSummary {
  total_count : Z;
  valid_count : Z;
  invalid_count : Z
}.

(** *** Text *)

Definition text_error_lines (ie : Z * ErrorRecord) : list string :=
  let (i, error) := ie in
  [nl ++ "  Error #" ++ str_of_int i ++ ":";
   "    Type: " ++ error_type error;
   "    Message: " ++ error_message error]
  ++ (if truthy (error_get_line error)
      then ["    Line: " ++ show (error_get_line error)] else [])
  ++ (if truthy (error_get_column error)
      then ["    Column: " ++ show (error_get_column error)] else []).

Definition text_result_lines (result : ValidationResult) : list string :=
  [nl ++ "File: " ++ file result;
   repeat_str "-" 80]
  ++ (if valid result then ["Status: ✓ VALID"]
      else
        ["Status: ✗ INVALID (" ++ str_of_int (len (errors result))
         ++ " errors)";
         nl ++ "Errors:"]
        ++ flat_map text_error_lines (enumerate (errors result) 1)).

(** The counts of the text report: the invalid ones are the rest. *)
Definition text_summary (results : list ValidationResult) : Summary :=
  let valid_count := sum_ones valid results in
  let invalid_count := len results - valid_count in
  mkSummary (len results) valid_count invalid_count.

(** The [lines] of the text report, [stamp] being the clock reading. *)
Definition text_report_lines (stamp : datetime)
    (results : list ValidationResult) : list string :=
  let counts := text_summary results in
  [repeat_str "=" 80;
   "CCD VALIDATION REPORT";
   repeat_str "=" 80;
   "Generated: " ++ strftime_YmdHMS stamp;
   "Total files validated: " ++ str_of_int (total_count counts);
   "Valid: " ++ str_of_int (valid_count counts);
   "Invalid: " ++ str_of_int (invalid_count counts);
   repeat_str "=" 80;
   ""]
  ++ flat_map text_result_lines results.

Definition _generate_text_report (w : World)
    (results : list ValidationResult) : Comp Sys string :=
  stamp <- now w ;;
  ret (join nl (text_report_lines stamp results)).

(** *** JSON *)

(** The counts of the JSON report: the invalid ones are counted. *)
Definition json_counts (results : list ValidationResult) : Summary :=
  mkSummary (len results)
            (sum_ones valid results)
            (sum_ones (fun r => negb (valid r)) results).

(** The [summary] dict of the JSON report. *)
Definition json_summary (results : list ValidationResult) : pyval :=
  let counts := json_counts results in
  PyDict [("total", PyInt (total_count counts));
          ("valid", PyInt (valid_count counts));
          ("invalid", PyInt (invalid_count counts))].

(** The [report] dict of the JSON report. *)
Definition json_report (stamp : datetime) (results : list ValidationResult)
  : pyval :=
  PyDict [("generated", PyStr (isoformat stamp));
          ("summary", json_summary results);
          ("results", PyList (map result_to_py results))].

Definition _generate_json_report (w : World)
    (results : list ValidationResult) : Comp Sys string :=
  stamp <- now w ;;
  ret (json_dumps (json_report stamp results)).

(** *** HTML *)

(** The [location] suffix of one error: the column only inside the
    parenthesis the line opens. *)
Definition html_location (error : ErrorRecord) : string :=
  if truthy (error_get_line error)
  then " (Line " ++ show (error_get_line error)
       ++ (if truthy (error_get_column error)
           then ", Column " ++ show (error_get_column error) else "")
       ++ ")"
  else "".

Definition html_error (ie : Z * ErrorRecord) : string :=
  let (i, error) := ie in
  nl
  ++ "        <div class=" ++ dq ++ "error" ++ dq ++ ">" ++ nl
  ++ "            <p><span class=" ++ dq ++ "error-type" ++ dq ++ ">Error #"
  ++ str_of_int i ++ ": " ++ error_type error ++ "</span>"
  ++ html_location error ++ "</p>" ++ nl
  ++ "            <p>" ++ error_message error ++ "</p>" ++ nl
  ++ "        </div>" ++ nl.

(** [''.join(xs)]. *)
Definition concat_str (xs : list string) : string := join "" xs.

Definition html_result (result : ValidationResult) : string :=
  let status_class := if valid result then "valid" else "invalid" in
  let status_text :=
    if valid result then "VALID"
    else "INVALID (" ++ str_of_int (len (errors result)) ++ " errors)" in
  let status_icon := if valid result then "&#x2713;" else "&#x2717;" in
  nl
  ++ "    <div class=" ++ dq ++ "file " ++ status_class ++ dq ++ ">" ++ nl
  ++ "        <h2>" ++ Path.name (Path.of_str (file result)) ++ "</h2>" ++ nl
  ++ "        <p><strong>Status:</strong> " ++ status_icon ++ " "
  ++ status_text ++ "</p>" ++ nl
  ++ "        <p><strong>Path:</strong> " ++ file result ++ "</p>" ++ nl
  ++ match errors result with
     | [] => ""
     | _ =>
         "        <h3>Errors:</h3>" ++ nl
         ++ concat_str (map html_error (enumerate (errors result) 1))
     end
  ++ "    </div>" ++ nl.

(** The counts of the HTML report: the invalid ones are the rest. *)
Definition html_summary (results : list ValidationResult) : Summary :=
  let valid_count := sum_ones valid results in
  let invalid_count := len results - valid_count in
  mkSummary (len results) valid_count invalid_count.

(** The head of the document, up to the summary block. *)
Definition html_preamble : string :=
  "<!DOCTYPE html>" ++ nl
  ++ "<html>" ++ nl
  ++ "<head>" ++ nl
  ++ "    <meta charset=" ++ dq ++ "UTF-8" ++ dq ++ ">" ++ nl
  ++ "    <title>CCD Validation Report</title>" ++ nl
  ++ "    <style>" ++ nl
  ++ "        body { font-family: Arial, sans-serif; margin: 20px; }" ++ nl
  ++ "        .summary { background: #f0f0f0; padding: 15px; margin-bottom: 20px; }" ++ nl
  ++ "        .file { border: 1px solid #ddd; margin: 10px 0; padding: 10px; }" ++ nl
  ++ "        .valid { border-left: 5px solid #4CAF50; }" ++ nl
  ++ "        .invalid { border-left: 5px solid #f44336; }" ++ nl
  ++ "        .error { background: #ffebee; padding: 10px; margin: 5px 0; }" ++ nl
  ++ "        .error-type { font-weight: bold; color: #c62828; }" ++ nl
  ++ "        h1, h2 { color: #333; }" ++ nl
  ++ "    </style>" ++ nl
  ++ "</head>" ++ nl
  ++ "<body>" ++ nl
  ++ "    <h1>CCD Validation Report</h1>" ++ nl.

(** The summary block of the document. *)
Definition html_summary_block (generated : string) (counts : Summary)
  : string :=
  "    <div class=" ++ dq ++ "summary" ++ dq ++ ">" ++ nl
  ++ "        <p><strong>Generated:</strong> " ++ generated ++ "</p>" ++ nl
  ++ "        <p><strong>Total Files:</strong> "
  ++ str_of_int (total_count counts) ++ "</p>" ++ nl
  ++ "        <p><strong>Valid:</strong> <span style=" ++ dq
  ++ "color: green;" ++ dq ++ ">" ++ str_of_int (valid_count counts)
  ++ "</span></p>" ++ nl
  ++ "        <p><strong>Invalid:</strong> <span style=" ++ dq
  ++ "color: red;" ++ dq ++ ">" ++ str_of_int (invalid_count counts)
  ++ "</span></p>" ++ nl
  ++ "    </div>" ++ nl.

Definition html_report (stamp : datetime) (results : list ValidationResult)
  : string :=
  html_preamble
  ++ html_summary_block (strftime_YmdHMS stamp) (html_summary results)
  ++ concat_str (map html_result results)
  ++ nl ++ "</body>" ++ nl ++ "</html>".

Definition _generate_html_report (w : World)
    (results : list ValidationResult) : Comp Sys string :=
  stamp <- now w ;;
  ret (html_report stamp results).

(** ** [CCDValidator.generate_report] *)

(** Truth value of an optional [str] argument. *)
Definition given (arg : option string) : bool :=
  match arg with
  | Some s => negb (String.eqb s "")
  | None => false
  end.

Definition arg_value (arg : option string) : string :=
  match arg with
  | Some s => s
  | None => "None"
  end.

(** [with open(path, 'w', encoding='utf-8') as f: f.write(content)]. *)
Definition write_file (w : World) (path content : string) : Comp Sys unit :=
  match open_w w path with
  | None => emit (EvWrite path content)
  | Some e => raise (Exc e)
  end.

Definition generate_report (w : World) (results : list ValidationResult)
    (output_format : string) (output_file : option string)
  : Comp Sys string :=
  report <- (if String.eqb output_format "json"
             then _generate_json_report w results
             else if String.eqb output_format "html"
                  then _generate_html_report w results
                  else _generate_text_report w results) ;;
  (if given output_file
   then write_file w (arg_value output_file) report ;;
        print (nl ++ "Report saved to: " ++ arg_value output_file)
   else print report) ;;
  ret report.

(** ** [CCDValidator.load_schema] and the constructor *)

Record CCDValidator := mkValidator {
  xsd_path : Path.t;
  schema : XMLSchema
}.

(** [CCDValidator(xsd_path)]: the schema is loaded, or the process exits. *)
Definition new_validator (w : World) (xsd : string) : Comp Sys CCDValidator :=
  let path := Path.of_str xsd in
  match compile_schema w (Path.to_str path) with
  | inl compiled =>
      print ("✓ Schema loaded successfully from: " ++ Path.to_str path) ;;
      ret (mkValidator path compiled)
  | inr e =>
      print ("✗ Error loading schema: " ++ str_of_exception e) ;;
      sys_exit 1
  end.

(** ** [main] *)

(** The namespace [parse_args] returns. *)
Record Args := mkArgs {
  arg_xsd : string;
  arg_file : option string;
  arg_dir : option string;
  arg_recursive : bool;
  arg_format : string;
  arg_output : option string
}.

(** [parser.error(message)]: usage and message on the error stream, then
    exit status 2. *)
Definition parser_error {A} (message : string) : Comp Sys A :=
  sys_exit 2.

(** [any(not r['valid'] for r in results)]. *)
Definition any_invalid (results : list ValidationResult) : bool :=
  existsb (fun r => negb (valid r)) results.

(** The results [main] computes once it has a validator. *)
Definition run_validation (w : World) (validator : CCDValidator)
    (args : Args) : Comp Sys (list ValidationResult) :=
  if given (arg_file args)
  then
    result <- validate_file w (schema validator)
                (AsStr (arg_value (arg_file args))) ;;
    ret [result]
  else
    validate_directory w (schema validator) (arg_value (arg_dir args))
      (arg_recursive args).

Definition main (w : World) (args : Args) : Comp Sys unit :=
  (if (negb (given (arg_file args)) && negb (given (arg_dir args)))%bool
   then parser_error "Either --file or --dir must be specified"
   else ret tt) ;;
  validator <- new_validator w (arg_xsd args) ;;
  results <- run_validation w validator args ;;
  generate_report w results (arg_format args) (arg_output args) ;;
  if any_invalid results then sys_exit 1 else ret tt.

(** The exit status of the process that runs a computation from the initial
    state: 0 when it returns, the code of [sys.exit], 1 for an uncaught
    exception. *)
Definition exit_status {A} (c : Comp Sys A) : Z :=
  match fst (c initial_sys) with
  | Val _ => 0
  | Raise (SystemExit code) => code
  | Raise (Exc _) => 1
  end.

(** ** [json.loads] *)

(** The white space the decoder skips: space, tab, line feed, carriage
    return. *)
Definition is_ws (c : ascii) : bool :=
  let n := nat_of_ascii c in
  (Nat.eqb n 32 || Nat.eqb n 9 || Nat.eqb n 10 || Nat.eqb n 13)%bool.

Fixpoint skip_ws (s : string) : string :=
  match s with
  | EmptyString => ""
  | String c rest => if is_ws c then skip_ws rest else s
  end.

Definition is_digit (c : ascii) : bool :=
  let n := nat_of_ascii c in
  (Nat.leb 48 n && Nat.leb n 57)%bool.

(** The longest run of digits at the head of a string, and what follows. *)
Fixpoint span_digits (s : string) : string * string :=
  match s with
  | EmptyString => ("", "")
  | String c rest =>
      if is_digit c
      then let (ds, tail) := span_digits rest in (String c ds, tail)
      else ("", s)
  end.

(** The integer part of a number as the decoder matches it: a lone [0], or
    a run of digits that does not start with [0]. *)
Definition span_integer (s : string) : string * string :=
  match s with
  | String "0" rest => ("0", rest)
  | _ => span_digits s
  end.

(** Whether a fraction or exponent follows, which makes the number a float:
    there are none among the values modelled. *)
Definition starts_float_part (s : string) : bool :=
  match s with
  | String c _ =>
      let n := nat_of_ascii c in
      (Nat.eqb n 46 || Nat.eqb n 101 || Nat.eqb n 69)%bool
  | EmptyString => false
  end.

Definition scan_int (s : string) : option (Z * string) :=
  let (negative, body) :=
    match s with
    | String "-" rest => (true, rest)
    | _ => (false, s)
    end in
  let (ds, tail) := span_integer body in
  if starts_float_part tail then None
  else
    match NilZero.uint_of_string ds with
    | Some d =>
        Some (if negative then Z.opp (Z.of_uint d) else Z.of_uint d, tail)
    | None => None
    end.

Definition hex_value (c : ascii) : option nat :=
  let n := nat_of_ascii c in
  if (Nat.leb 48 n && Nat.leb n 57)%bool then Some (n - 48)%nat
  else if (Nat.leb 97 n && Nat.leb n 102)%bool then Some (n - 87)%nat
  else if (Nat.leb 65 n && Nat.leb n 70)%bool then Some (n - 55)%nat
  else None.

(** The character a [\uXXXX] escape denotes, when it is one of the 256
    modelled. *)
Definition unicode_escape (h1 h2 h3 h4 : ascii) : option ascii :=
  match hex_value h1, hex_value h2, hex_value h3, hex_value h4 with
  | Some a, Some b, Some c, Some d =>
      if (Nat.eqb a 0 && Nat.eqb b 0)%bool
      then Some (ascii_of_nat (16 * c + d))
      else None
  | _, _, _, _ => None
  end.

(** The character a two-character escape denotes. *)
Definition simple_escape (e : ascii) : option ascii :=
  let n := nat_of_ascii e in
  if Nat.eqb n 34 then Some (ascii_of_nat 34)
  else if Nat.eqb n 92 then Some (ascii_of_nat 92)
  else if Nat.eqb n 47 then Some (ascii_of_nat 47)
  else if Nat.eqb n 98 then Some (ascii_of_nat 8)
  else if Nat.eqb n 102 then Some (ascii_of_nat 12)
  else if Nat.eqb n 110 then Some (ascii_of_nat 10)
  else if Nat.eqb n 114 then Some (ascii_of_nat 13)
  else if Nat.eqb n 116 then Some (ascii_of_nat 9)
  else None.

Definition prepend (c : ascii) (r : option (string * string))
  : option (string * string) :=
  match r with
  | Some (s, tail) => Some (String c s, tail)
  | None => None
  end.

(** The body of a string after its opening quote, up to the closing quote,
    and what follows it. Control characters must be escaped. *)
Fixpoint scan_string (s : string) : option (string * string) :=
  match s with
  | EmptyString => None
  | String c rest =>
      let n := nat_of_ascii c in
      if Nat.eqb n 34 then Some ("", rest)
      else if Nat.eqb n 92 then
        match rest with
        | EmptyString => None
        | String e rest1 =>
            match simple_escape e with
            | Some c' => prepend c' (scan_string rest1)
            | None =>
                if Nat.eqb (nat_of_ascii e) 117 then
                  match rest1 with
                  | String h1 (String h2 (String h3 (String h4 rest2))) =>
                      match unicode_escape h1 h2 h3 h4 with
                      | Some c' => prepend c' (scan_string rest2)
                      | None => None
                      end
                  | _ => None
                  end
                else None
            end
        end
      else if Nat.ltb n 32 then None
      else prepend c (scan_string rest)
  end.

(** [d[key] = v]: replace in place, or insert at the end. *)
Fixpoint dict_set (key : string) (v : pyval) (fields : list (string * pyval))
  : list (string * pyval) :=
  match fields with
  | [] => [(key, v)]
  | (k, old) :: rest =>
      if String.eqb k key then (k, v) :: rest
      else (k, old) :: dict_set key v rest
  end.

(** The dict built from the members of an object, in order. *)
Definition dict_of_members (members : list (string * pyval))
  : list (string * pyval) :=
  fold_left (fun d kv => dict_set (fst kv) (snd kv) d) members [].

(** The decoder: a value at the head of a string, and what follows it. The
    fuel bounds the nesting of calls. *)
Fixpoint scan_value (fuel : nat) (s : string) : option (pyval * string) :=
  match fuel with
  | O => None
  | S fuel' =>
      match s with
      | String "n" (String "u" (String "l" (String "l" rest))) =>
          Some (PyNone, rest)
      | String "t" (String "r" (String "u" (String "e" rest))) =>
          Some (PyBool true, rest)
      | String "f" (String "a" (String "l" (String "s" (String "e" rest)))) =>
          Some (PyBool false, rest)
      | String "034" rest =>
          match scan_string rest with
          | Some (str, tail) => Some (PyStr str, tail)
          | None => None
          end
      | String "[" rest =>
          match skip_ws rest with
          | String "]" tail => Some (PyList [], tail)
          | body =>
              match scan_items fuel' body with
              | Some (items, tail) => Some (PyList items, tail)
              | None => None
              end
          end
      | String "{" rest =>
          match skip_ws rest with
          | String "}" tail => Some (PyDict [], tail)
          | body =>
              match scan_members fuel' body with
              | Some (members, tail) =>
                  Some (PyDict (dict_of_members members), tail)
              | None => None
              end
          end
      | _ =>
          match scan_int s with
          | Some (n, tail) => Some (PyInt n, tail)
          | None => None
          end
      end
  end

with scan_items (fuel : nat) (s : string) : option (list pyval * string) :=
  match fuel with
  | O => None
  | S fuel' =>
      match scan_value fuel' s with
      | None => None
      | Some (v, after) =>
          match skip_ws after with
          | String "]" tail => Some ([v], tail)
          | String "," more =>
              match scan_items fuel' (skip_ws more) with
              | Some (vs, tail) => Some (v :: vs, tail)
              | None => None
              end
          | _ => None
          end
      end
  end

with scan_members (fuel : nat) (s : string)
  : option (list (string * pyval) * string) :=
  match fuel with
  | O => None
  | S fuel' =>
      match s with
      | String "034" rest =>
          match scan_string rest with
          | None => None
          | Some (key, after_key) =>
              match skip_ws after_key with
              | String ":" after_colon =>
                  match scan_value fuel' (skip_ws after_colon) with
                  | None => None
                  | Some (v, after) =>
                      match skip_ws after with
                      | String "}" tail => Some ([(key, v)], tail)
                      | String "," more =>
                          match scan_members fuel' (skip_ws more) with
                          | Some (kvs, tail) => Some ((key, v) :: kvs, tail)
                          | None => None
                          end
                      | _ => None
                      end
                  end
              | _ => None
              end
          end
      | _ => None
      end
  end.

(** [json.loads(s)]: one value, with nothing but white space around it.
    [None] stands for a decoding error. *)
Definition json_loads (s : string) : option pyval :=
  match scan_value (S (String.length s)) (skip_ws s) with
  | Some (v, tail) =>
      match skip_ws tail with
      | EmptyString => Some v
      | String _ _ => None
      end
  | None => None
  end.

(** ** Vocabulary of the properties *)

(** The number of records of a given type. *)
Definition count_type (t : string) (es : list ErrorRecord) : nat :=
  List.length (filter (fun e => String.eqb (error_type e) t) es).

(** The number of times the schema engine was invoked in a trace. *)
Definition schema_invocations (t : list event) : nat :=
  List.length
    (filter (fun e => match e with EvSchemaValidate _ => true | _ => false end)
            t).

(** The exception that leaves the outer [try] body of [validate_file], if
    any: a syntax error of the parser is handled inside and does not. *)
Definition escaping_failure (w : World) (schema : XMLSchema) (path : string)
  : option exception :=
  match open_rb w path with
  | Some e => Some e
  | None =>
      match parse w path with
      | inr (XMLSyntaxError _ _) => None
      | inr e => Some e
      | inl doc =>
          match schema_validate schema doc with
          | ValidateRaises e => Some e
          | Verdict _ _ => None
          end
      end
  end.

(** The engine never rejects a document without logging a diagnostic. *)
Definition logs_every_rejection (schema : XMLSchema) : Prop :=
  forall doc, schema_validate schema doc <> Verdict false [].

(** [r] is what [validate_file] returned for [p] at some point of a run. *)
Definition result_of_file (w : World) (schema : XMLSchema) (p : pathlike)
    (r : ValidationResult) : Prop :=
  exists s s' : Sys, validate_file w schema p s = (Val r, s').

(** The schema [main] loads for its [--xsd] argument, if it compiles. *)
Definition schema_of_args (w : World) (args : Args) : XMLSchema + exception :=
  compile_schema w (Path.to_str (Path.of_str (arg_xsd args))).

(** The results [main] hands to the report: those of [run_validation] in
    the state the schema load leaves, none when the load fails. *)
Definition processed_results (w : World) (args : Args)
  : list ValidationResult :=
  match new_validator w (arg_xsd args) initial_sys with
  | (Val validator, s) =>
      match run_validation w validator args s with
      | (Val results, _) => results
      | (Raise _, _) => []
      end
  | (Raise _, _) => []
  end.

(** The report reaches its sink: the output file, when one is named, can be
    written. *)
Definition report_sink_ok (w : World) (args : Args) : Prop :=
  given (arg_output args) = true ->
  open_w w (arg_value (arg_output args)) = None.

(** The counts of the report [generate_report] renders for a format. *)
Definition report_summary (output_format : string)
    (results : list ValidationResult) : Summary :=
  if String.eqb output_format "json" then json_counts results
  else if String.eqb output_format "html" then html_summary results
       else text_summary results.

(** The number of results with [valid] true. *)
Definition number_valid (results : list ValidationResult) : Z :=
  Z.of_nat (List.length (filter valid results)).

(** [name] ends with [suffix]. *)
Definition ends_with (suffix name : string) : Prop :=
  exists stem : string, name = stem ++ suffix.

(** [reaches entries rel e]: following the components [rel] from a directory
    whose entries are [entries] leads to the entry [e]. *)
Inductive reaches : list entry -> list string -> entry -> Prop :=
| reaches_here (entries : list entry) (e : entry) :
    In e entries -> reaches entries [entry_name e] e
| reaches_below (entries : list entry) (d : string) (children : list entry)
                (rel : list string) (e : entry) :
    In (Dir d children) entries ->
    reaches children rel e ->
    reaches entries (d :: rel) e.

(** Induction on a directory tree, the hypothesis holding for every child. *)
Fixpoint entry_tree_ind (P : entry -> Prop)
    (Hfile : forall n, P (File n))
    (Hdir : forall n children, Forall P children -> P (Dir n children))
    (e : entry) : P e :=
  match e with
  | File n => Hfile n
  | Dir n children =>
      Hdir n children
        ((fix all (cs : list entry) : Forall P cs :=
            match cs with
            | [] => Forall_nil P
            | c :: cs' =>
                Forall_cons c (entry_tree_ind P Hfile Hdir c) (all cs')
            end) children)
  end.

(** The last character of a string. *)
Fixpoint last_char (s : string) : option ascii :=
  match s with
  | EmptyString => None
  | String c EmptyString => Some c
  | String _ rest => last_char rest
  end.

(** What may follow a value in a document: the text does not go on with a
    digit, a fraction or an exponent, so that a number ends where it was
    written to end. *)
Definition number_ends (rest : string) : bool :=
  match rest with
  | EmptyString => true
  | String c _ => (negb (is_digit c) && negb (starts_float_part rest))%bool
  end.

(** A value whose dicts have distinct keys, as every Python dict has. *)
Fixpoint well_keyed (v : pyval) : Prop :=
  match v with
  | PyList items =>
      (fix all (vs : list pyval) : Prop :=
         match vs with
         | [] => True
         | x :: vs' => well_keyed x /\ all vs'
         end) items
  | PyDict fields =>
      NoDup (map fst fields)
      /\ (fix all (kvs : list (string * pyval)) : Prop :=
            match kvs with
            | [] => True
            | kv :: kvs' => well_keyed (snd kv) /\ all kvs'
            end) fields
  | _ => True
  end.

(** The fuel that decoding the text of a value takes at most. *)
Fixpoint weight (v : pyval) : nat :=
  match v with
  | PyList items =>
      S ((fix sum (vs : list pyval) : nat :=
            match vs with
            | [] => O
            | x :: vs' => S (weight x + sum vs')
            end) items)
  | PyDict fields =>
      S ((fix sum (kvs : list (string * pyval)) : nat :=
            match kvs with
            | [] => O
            | kv :: kvs' => S (weight (snd kv) + sum kvs')
            end) fields)
  | _ => 1%nat
  end.

Definition items_weight (items : list pyval) : nat :=
  fold_right (fun x n => S (weight x + n)) O items.

Definition fields_weight (fields : list (string * pyval)) : nat :=
  fold_right (fun kv n => S (weight (snd kv) + n)) O fields.

(** Induction on a value, the hypothesis holding for the items of a list
    and the values of a dict. *)
Fixpoint pyval_tree_ind (P : pyval -> Prop)
    (Hnone : P PyNone)
    (Hbool : forall b, P (PyBool b))
    (Hint : forall n, P (PyInt n))
    (Hstr : forall s, P (PyStr s))
    (Hlist : forall items, Forall P items -> P (PyList items))
    (Hdict : forall fields,
        Forall (fun kv => P (snd kv)) fields -> P (PyDict fields))
    (v : pyval) : P v :=
  match v with
  | PyNone => Hnone
  | PyBool b => Hbool b
  | PyInt n => Hint n
  | PyStr s => Hstr s
  | PyList items =>
      Hlist items
        ((fix all (vs : list pyval) : Forall P vs :=
            match vs with
            | [] => Forall_nil P
            | x :: vs' =>
                Forall_cons x
                  (pyval_tree_ind P Hnone Hbool Hint Hstr Hlist Hdict x)
                  (all vs')
            end) items)
  | PyDict fields =>
      Hdict fields
        ((fix all (kvs : list (string * pyval))
            : Forall (fun kv => P (snd kv)) kvs :=
            match kvs with
            | [] => Forall_nil _
            | kv :: kvs' =>
                Forall_cons kv
                  (pyval_tree_ind P Hnone Hbool Hint Hstr Hlist Hdict
                     (snd kv))
                  (all kvs')
            end) fields)
  end.

(** The first character of the text of a value. *)
Definition value_head (c : ascii) : bool :=
  let n := nat_of_ascii c in
  (is_digit c || Nat.eqb n 45 || Nat.eqb n 110 || Nat.eqb n 116
   || Nat.eqb n 102 || Nat.eqb n 34 || Nat.eqb n 91 || Nat.eqb n 123)%bool.

(** The text of the items of a list, or of the members of a dict, nested
    [level] deep. *)
Definition items_text (level : nat) (items : list pyval) : string :=
  join ("," ++ newline_indent level) (map (json_dumps_at level) items).

Definition member_text (level : nat) (kv : string * pyval) : string :=
  json_string (fst kv) ++ ": " ++ json_dumps_at level (snd kv).

Definition members_text (level : nat) (fields : list (string * pyval))
  : string :=
  join ("," ++ newline_indent level) (map (member_text level) fields).

(** Decoding the text of [v], whatever follows it, gives [v] back. *)
Definition decodes (v : pyval) : Prop :=
  forall (level : nat) (rest : string) (fuel : nat),
    (weight v <= fuel)%nat ->
    number_ends rest = true ->
    scan_value fuel (json_dumps_at level v ++ rest) = Some (v, rest).

(** The number of results with [valid] false. *)
Definition number_invalid (results : list ValidationResult) : Z :=
  Z.of_nat (List.length (filter (fun r => negb (valid r)) results)).

(** What a trace shows on the standard output. *)
Fixpoint stdout (t : list event) : string :=
  match t with
  | [] => ""
  | EvPrint text :: rest => text ++ stdout rest
  | _ :: rest => stdout rest
  end.

(** The progress line of one file of a directory walk. *)
Definition progress_line (path_and_result : Path.t * ValidationResult)
  : string :=
  let (path, r) := path_and_result in
  "Validating: " ++ Path.name path ++ "... "
  ++ (if valid r then "✓ VALID"
      else if well_formed r
           then "✗ INVALID (" ++ str_of_int (len (errors r)) ++ " errors)"
           else "✗ NOT WELL-FORMED")
  ++ nl.

(** [x] occurs in [s] as a run of consecutive characters. *)
Definition occurs_in (x s : string) : Prop :=
  exists before after : string, s = before ++ x ++ after.

(** *** Sample environments *)

Definition sample_clock (n : nat) : datetime :=
  mkDatetime "2024-05-01T10:00:00" "2024-05-01 10:00:00".

Definition sample_entry : LogEntry :=
  mkLogEntry "Element 'id': This element is not expected." 4 0
             "SCHEMASV" "ERROR".

(** An engine that accepts every document. *)
Definition accepting_schema : XMLSchema :=
  mkSchema (fun _ => Verdict true []).

(** An engine that rejects every document with one diagnostic. *)
Definition rejecting_schema : XMLSchema :=
  mkSchema (fun _ => Verdict false [sample_entry]).

(** An engine that rejects every document and logs nothing. *)
Definition silent_schema : XMLSchema :=
  mkSchema (fun _ => Verdict false []).

(** A world with a directory [docs] holding [a.xml], [B.XML], [notes.txt]
    and a subdirectory [old] with [c.xml]; [bad.xml] is malformed,
    [missing.xml] does not exist, and [broken.xsd] does not compile. *)
Definition sample_world : World :=
  mkWorld sample_clock
    (fun path =>
       if String.eqb path "missing.xml"
       then Some (FileNotFoundError "[Errno 2] No such file or directory")
       else None)
    (fun path =>
       if String.eqb path "bad.xml"
       then inr (XMLSyntaxError "Opening and ending tag mismatch" (Some (Some 3)))
       else inl (Document path))
    (fun path =>
       if String.eqb path "broken.xsd"
       then inr (OtherException "Document is not a valid schema")
       else inl rejecting_schema)
    (fun path =>
       if String.eqb path "docs"
       then [File "a.xml"; File "B.XML"; File "notes.txt";
             Dir "old" [File "c.xml"]]
       else [])
    (fun path =>
       if String.eqb path "/nowhere/report.txt"
       then Some (FileNotFoundError "[Errno 2] No such file or directory")
       else None).

(** Invocations on the sample world: a schema that does not compile, and a
    schema that compiles with a document it rejects. *)
Definition broken_schema_args : Args :=
  mkArgs "broken.xsd" (Some "a.xml") None false "text" None.

Definition invalid_file_args : Args :=
  mkArgs "CDA.xsd" (Some "a.xml") None false "text" None.

(** The sample world with a schema that accepts every document. *)
Definition accepting_world : World :=
  mkWorld (clock sample_world) (open_rb sample_world) (parse sample_world)
          (fun _ => inl accepting_schema)
          (listdir sample_world) (open_w sample_world).

(** An invocation on one document whose report cannot be written. *)
Definition unwritable_report_args : Args :=
  mkArgs "CDA.xsd" (Some "a.xml") None false "text"
         (Some "/nowhere/report.txt").

(** An invocation that names neither a file nor a directory. *)
Definition no_source_args : Args :=
  mkArgs "CDA.xsd" (Some "") None true "json" None.

(** An invocation that names both a file and a directory. *)
Definition both_sources_args : Args :=
  mkArgs "CDA.xsd" (Some "a.xml") (Some "docs") true "text" None.

(** An invocation on a document that does not exist. *)
Definition missing_file_args : Args :=
  mkArgs "CDA.xsd" (Some "missing.xml") None false "text" None.


(** ** Properties of [validate_file] *)

Lemma for_each_record_schema_error :
  forall (log : list LogEntry) (r : ValidationResult) (s : Sys),
    for_each log record_schema_error (r, s)
    = (Val tt,
       (mkResult (file r) (valid r) (well_formed r)
                 (errors r ++ map schema_error_of log) (timestamp r), s)).
Proof.
  induction log as [|entry log IH]; intros r s.
  - simpl. unfold ret. rewrite app_nil_r. now destruct r.
  - simpl. unfold bind, record_schema_error, modify_local. simpl fst; simpl snd.
    fold record_schema_error. rewrite IH. simpl. now rewrite <- app_assoc.
Qed.

Ltac unfold_validate :=
  unfold validate_file, validate_body, parse_step, with_local, try_except,
    bind, ret, raise, lift, get_local, modify_local, now, open_read,
    etree_parse, validate_doc, read_error_log, emit, modify, get;
  simpl.

(** Case analysis on what the collaborators do for one file. *)
Ltac by_outcome w schema path :=
  unfold escaping_failure in *;
  destruct (open_rb w path) as [[?|? ?|?]|] eqn:Hopen; simpl in *;
  [ | | |
    destruct (parse w path) as [doc|[?|? ?|?]] eqn:Hparse; simpl in *;
    [ destruct (schema_validate schema doc) as [[|] log|[?|? ?|?]] eqn:Hval;
      simpl in *;
      [ | rewrite for_each_record_schema_error; simpl | | | ]
    | | | ] ].

(** [validate_file] returns a result for the path it was given, stamped
    with the clock reading it took. *)
Lemma validate_file_returns :
  forall (w : World) (schema : XMLSchema) (p : pathlike) (s : Sys),
  exists (r : ValidationResult) (s' : Sys),
    validate_file w schema p s = (Val r, s')
    /\ file r = str_of_pathlike p.
Proof.
  intros w schema p s.
  unfold_validate.
  by_outcome w schema (str_of_pathlike p);
    eexists; eexists; (split; [reflexivity|]); reflexivity.
Qed.

(** C4. [validate_file] never raises: whatever the collaborators do it
    returns a complete result. When a [FileNotFoundError] leaves the [try]
    body (a missing file) the result holds the single record
    [FILE_NOT_FOUND]; when any other exception does, the single record
    [UNEXPECTED_ERROR] with its description; [valid] is false in both
    cases. *)
Theorem validate_file_never_raises :
  forall (w : World) (schema : XMLSchema) (p : pathlike) (s : Sys),
  exists (r : ValidationResult) (s' : Sys),
    validate_file w schema p s = (Val r, s')
    /\ file r = str_of_pathlike p
    /\ timestamp r = isoformat (clock w (ticks s))
    /\ match escaping_failure w schema (str_of_pathlike p) with
       | Some (FileNotFoundError _) =>
           valid r = false
           /\ errors r
              = [FileNotFound ("File not found: " ++ str_of_pathlike p)]
       | Some e =>
           valid r = false
           /\ errors r = [UnexpectedError (str_of_exception e)]
       | None => True
       end.
Proof.
  intros w schema p s.
  unfold_validate.
  by_outcome w schema (str_of_pathlike p);
    eexists; eexists; (split; [reflexivity|]); simpl; auto.
Qed.



(** C1, as the code has it. When [well_formed] is false, [valid] is false
    and [errors] holds exactly one record; its type is [XML_SYNTAX_ERROR]
    when the parser raised a syntax error, and [FILE_NOT_FOUND] or
    [UNEXPECTED_ERROR] when an exception left the [try] body. *)
Theorem not_well_formed_single_error :
  forall (w : World) (schema : XMLSchema) (p : pathlike) (s s' : Sys)
         (r : ValidationResult),
    validate_file w schema p s = (Val r, s') ->
    well_formed r = false ->
    valid r = false
    /\ exists e : ErrorRecord,
         errors r = [e]
         /\ match escaping_failure w schema (str_of_pathlike p) with
            | None => error_type e = "XML_SYNTAX_ERROR"
            | Some (FileNotFoundError _) => error_type e = "FILE_NOT_FOUND"
            | Some _ => error_type e = "UNEXPECTED_ERROR"
            end.
Proof.
  intros w schema p s s' r Hrun Hwf. revert Hrun.
  unfold_validate.
  by_outcome w schema (str_of_pathlike p);
    intros [= <- <-]; simpl in *; try discriminate;
    (split; [reflexivity|]); eexists; (split; [reflexivity|]); reflexivity.
Qed.

Lemma not_well_formed_single_error_witness :
  valid (mkResult "missing.xml" false false
           [FileNotFound "File not found: missing.xml"]
           "2024-05-01T10:00:00") = false
  /\ exists e : ErrorRecord,
       [FileNotFound "File not found: missing.xml"] = [e]
       /\ error_type e = "FILE_NOT_FOUND".
Proof.
  apply (not_well_formed_single_error sample_world rejecting_schema
           (AsStr "missing.xml") initial_sys
           (mkSys 1 [] [EvOpen "missing.xml"]));
    reflexivity.
Defined.

(** C1 as stated fails: for a missing file [well_formed] is false and
    [errors] holds no [XML_SYNTAX_ERROR] record at all. *)
Lemma missing_file_has_no_syntax_error :
  exists (r : ValidationResult) (s' : Sys),
    validate_file sample_world rejecting_schema (AsStr "missing.xml")
                  initial_sys = (Val r, s')
    /\ well_formed r = false
    /\ errors r = [FileNotFound "File not found: missing.xml"]
    /\ count_type "XML_SYNTAX_ERROR" (errors r) <> 1%nat.
Proof.
  eexists; eexists; split; [reflexivity|]. simpl.
  repeat split. discriminate.
Qed.

(** C3, as the code has it. A valid result has no errors and is
    well-formed. Conversely a result without errors is valid provided the
    schema engine logs at least one diagnostic whenever it rejects a
    document: the code adds no record of its own for a rejection. *)
Theorem valid_iff_no_errors :
  forall (w : World) (schema : XMLSchema) (p : pathlike) (s s' : Sys)
         (r : ValidationResult),
    validate_file w schema p s = (Val r, s') ->
    (valid r = true -> errors r = [] /\ well_formed r = true)
    /\ (logs_every_rejection schema -> errors r = [] -> valid r = true).
Proof.
  intros w schema p s s' r Hrun. revert Hrun.
  unfold_validate.
  by_outcome w schema (str_of_pathlike p);
    intros [= <- <-]; simpl; split; try discriminate; auto.
  intros Hlogs Hnil. destruct log as [|entry log]; [|discriminate].
  now apply Hlogs in Hval.
Qed.

Lemma valid_iff_no_errors_witness :
  (valid (mkResult "a.xml" true true [] "2024-05-01T10:00:00") = true ->
   errors (mkResult "a.xml" true true [] "2024-05-01T10:00:00") = []
   /\ well_formed (mkResult "a.xml" true true [] "2024-05-01T10:00:00")
      = true)
  /\ (logs_every_rejection accepting_schema ->
      errors (mkResult "a.xml" true true [] "2024-05-01T10:00:00") = [] ->
      valid (mkResult "a.xml" true true [] "2024-05-01T10:00:00") = true).
Proof.
  apply (valid_iff_no_errors sample_world accepting_schema (AsStr "a.xml")
           initial_sys
           (mkSys 1 []
              [EvOpen "a.xml"; EvParse "a.xml";
               EvSchemaValidate (Document "a.xml")])).
  reflexivity.
Defined.

(** C3 as stated fails: when the engine rejects a document and its log is
    empty, the result has no errors and yet is not valid. *)
Lemma silent_rejection_has_no_errors :
  exists (r : ValidationResult) (s' : Sys),
    validate_file sample_world silent_schema (AsStr "a.xml") initial_sys
    = (Val r, s')
    /\ errors r = []
    /\ valid r = false
    /\ ~ (errors r = [] <-> valid r = true).
Proof.
  eexists; eexists; split; [reflexivity|]. simpl.
  repeat split. intros [H _]. now specialize (H eq_refl).
Qed.

(** ** Properties of [validate_directory] *)

Lemma validate_one_runs (w : World) (schema : XMLSchema) :
  forall (xml_file : Path.t) (acc : list ValidationResult) (s : Sys),
  exists (r : ValidationResult) (s' : Sys),
    validate_one w schema xml_file (acc, s) = (Val tt, ((acc ++ [r])%list, s'))
    /\ result_of_file w schema (AsPath xml_file) r.
Proof.
  intros xml_file acc s.
  unfold validate_one, bind, lift. simpl.
  match goal with
  | |- context [validate_file w schema (AsPath xml_file) ?st] =>
      destruct (validate_file_returns w schema (AsPath xml_file) st)
        as (r & s1 & Hrun & _)
  end.
  rewrite Hrun. simpl.
  exists r.
  destruct (valid r); [|destruct (well_formed r)];
    unfold print, print_end, emit, modify, modify_local; simpl;
    eexists; (split; [reflexivity|]); eexists; eexists; exact Hrun.
Qed.

Lemma validate_loop_runs (w : World) (schema : XMLSchema) :
  forall (files : list Path.t) (acc : list ValidationResult) (s : Sys),
  exists (rs : list ValidationResult) (s' : Sys),
    for_each files (validate_one w schema) (acc, s)
    = (Val tt, ((acc ++ rs)%list, s'))
    /\ Forall2 (fun path r => result_of_file w schema (AsPath path) r)
               files rs.
Proof.
  induction files as [|path files IH]; intros acc s.
  - exists [], s. simpl. unfold ret. now rewrite app_nil_r.
  - destruct (validate_one_runs w schema path acc s) as (r & s1 & Hone & Hr).
    destruct (IH (acc ++ [r])%list s1) as (rs & s2 & Hrest & Hrs).
    exists (r :: rs), s2. simpl. unfold bind. rewrite Hone, Hrest.
    rewrite <- app_assoc. simpl. split; [reflexivity|].
    now constructor.
Qed.

(** [validate_directory] returns one result per path the glob yields, in
    that order, each the result of [validate_file] on that path. *)
Lemma validate_directory_runs (w : World) (schema : XMLSchema) :
  forall (directory_path : string) (recursive : bool) (s : Sys),
  exists (results : list ValidationResult) (s' : Sys),
    validate_directory w schema directory_path recursive s
    = (Val results, s')
    /\ Forall2 (fun path r => result_of_file w schema (AsPath path) r)
         (glob w (Path.of_str directory_path) (glob_pattern recursive))
         results.
Proof.
  intros directory_path recursive s.
  unfold validate_directory, with_local.
  destruct (glob w (Path.of_str directory_path) (glob_pattern recursive))
    as [|path files] eqn:Hglob.
  - exists [], (mkSys (ticks s) (schema_error_log s)
                  (trace s
                   ++ [EvPrint ("No XML files found in " ++ directory_path
                                ++ String (ascii_of_nat 10) "")])).
    split; [reflexivity|constructor].
  - unfold bind, lift. simpl snd. simpl fst.
    unfold print, print_end, emit, modify. simpl fst. simpl snd.
    match goal with
    | |- context [for_each _ _ (?acc, ?st)] =>
        destruct (validate_loop_runs w schema (path :: files) acc st)
          as (rs & s1 & Hloop & Hrs)
    end.
    rewrite Hloop. simpl. now exists rs, s1.
Qed.

(** A valid result is well-formed and has no errors. *)
Lemma result_of_file_valid (w : World) (schema : XMLSchema) (p : pathlike)
    (r : ValidationResult) :
  result_of_file w schema p r ->
  valid r = true -> errors r = [] /\ well_formed r = true.
Proof.
  intros (s & s' & Hrun). revert Hrun.
  unfold_validate.
  by_outcome w schema (str_of_pathlike p);
    intros [= <- <-]; simpl; try discriminate; auto.
Qed.

(** ** Properties of [main] *)

Lemma run_validation_runs (w : World) (validator : CCDValidator)
    (args : Args) (s : Sys) :
  exists (results : list ValidationResult) (s' : Sys),
    run_validation w validator args s = (Val results, s')
    /\ Forall (fun r => exists p, result_of_file w (schema validator) p r)
              results.
Proof.
  unfold run_validation.
  destruct (given (arg_file args)).
  - destruct (validate_file_returns w (schema validator)
                (AsStr (arg_value (arg_file args))) s) as (r & s' & Hrun & _).
    exists [r], s'. unfold bind. rewrite Hrun. split; [reflexivity|].
    constructor; [|constructor]. eexists; eexists; eexists; exact Hrun.
  - destruct (validate_directory_runs w (schema validator)
                (arg_value (arg_dir args)) (arg_recursive args) s)
      as (results & s' & Hrun & Hall).
    exists results, s'. split; [exact Hrun|].
    clear Hrun. induction Hall as [|path r paths rs Hr _ IH]; constructor.
    + now exists (AsPath path).
    + exact IH.
Qed.

Lemma report_renders (w : World) (results : list ValidationResult)
    (output_format : string) (s : Sys) :
  exists (report : string) (s' : Sys),
    (if String.eqb output_format "json"
     then _generate_json_report w results
     else if String.eqb output_format "html"
          then _generate_html_report w results
          else _generate_text_report w results) s = (Val report, s').
Proof.
  destruct (String.eqb output_format "json");
    [|destruct (String.eqb output_format "html")];
    eexists; eexists; reflexivity.
Qed.

(** [generate_report] returns, or raises the exception of a failed write; it
    returns when the sink can be written. *)
Lemma generate_report_runs (w : World) (results : list ValidationResult)
    (output_format : string) (output_file : option string) (s : Sys) :
  (exists (e : exception) (s' : Sys),
      given output_file = true
      /\ open_w w (arg_value output_file) = Some e
      /\ generate_report w results output_format output_file s
         = (Raise (Exc e), s'))
  \/ (exists (report : string) (s' : Sys),
         (given output_file = true -> open_w w (arg_value output_file) = None)
         /\ generate_report w results output_format output_file s
            = (Val report, s')).
Proof.
  unfold generate_report, bind.
  destruct (report_renders w results output_format s) as (report & s1 & ->).
  destruct (given output_file) eqn:Hgiven.
  - unfold write_file.
    destruct (open_w w (arg_value output_file)) as [e|] eqn:Hopen.
    + left. exists e, s1. now repeat split.
    + right. eexists; eexists. split; [auto|reflexivity].
  - right. eexists; eexists. split; [discriminate|reflexivity].
Qed.

Lemma any_invalid_true (results : list ValidationResult) :
  any_invalid results = true <-> Exists (fun r => valid r = false) results.
Proof.
  unfold any_invalid. rewrite existsb_exists, Exists_exists.
  split; intros (r & Hin & Hr); exists r; split; auto.
  - now destruct (valid r).
  - now rewrite Hr.
Qed.

Lemma any_invalid_false (results : list ValidationResult) :
  any_invalid results = false <-> Forall (fun r => valid r = true) results.
Proof.
  unfold any_invalid. induction results as [|r results IH]; simpl.
  - split; [constructor|reflexivity].
  - rewrite orb_false_iff, IH, negb_false_iff. split.
    + intros [Hr Hall]. now constructor.
    + intros Hall. inversion Hall. now split.
Qed.

(** The constructor returns a validator holding the compiled schema, or
    exits with status 1 after printing the failure. *)
Lemma new_validator_runs (w : World) (xsd : string) (s : Sys) :
  match compile_schema w (Path.to_str (Path.of_str xsd)) with
  | inl compiled =>
      exists s' : Sys,
        new_validator w xsd s
        = (Val (mkValidator (Path.of_str xsd) compiled), s')
  | inr e =>
      new_validator w xsd s
      = (Raise (SystemExit 1),
         mkSys (ticks s) (schema_error_log s)
               (trace s ++ [EvPrint ("✗ Error loading schema: "
                                     ++ str_of_exception e ++ nl)]))
  end.
Proof.
  unfold new_validator.
  destruct (compile_schema w (Path.to_str (Path.of_str xsd))) as [compiled|e].
  - eexists. reflexivity.
  - unfold bind, print, print_end, emit, modify, sys_exit, raise. simpl.
    reflexivity.
Qed.

(** C5, as the code has it. For an invocation that names a file or a
    directory: when the schema fails to load the process exits at once with
    status 1, before any document is read; when it loads, the status is 1
    as soon as one processed file is invalid or not well-formed, and 0 when
    every processed file is valid (also when there is none) and the report
    reaches its sink. The status of a schema failure is thus the status of
    an invalid file. *)
Theorem main_exit_status :
  forall (w : World) (args : Args),
    (given (arg_file args) || given (arg_dir args))%bool = true ->
    match schema_of_args w args with
    | inr e =>
        exit_status (main w args) = 1
        /\ trace (snd (main w args initial_sys))
           = [EvPrint ("✗ Error loading schema: " ++ str_of_exception e
                       ++ nl)]
    | inl _ =>
        (Exists (fun r => valid r = false \/ well_formed r = false)
                (processed_results w args) ->
         exit_status (main w args) = 1)
        /\ (Forall (fun r => valid r = true) (processed_results w args) ->
            report_sink_ok w args ->
            exit_status (main w args) = 0)
    end.
Proof.
  intros w args Hsource.
  unfold schema_of_args, processed_results, exit_status, main, bind.
  assert (Hgate :
            (negb (given (arg_file args)) && negb (given (arg_dir args)))%bool
            = false).
  { destruct (given (arg_file args)), (given (arg_dir args));
      simpl in *; congruence. }
  rewrite Hgate.
  change (ret tt initial_sys) with (@pair (Res unit) Sys (Val tt) initial_sys).
  cbv beta iota.
  pose proof (new_validator_runs w (arg_xsd args) initial_sys) as Hload.
  destruct (compile_schema w (Path.to_str (Path.of_str (arg_xsd args))))
    as [compiled|e].
  - destruct Hload as (s0 & ->).
    destruct (run_validation_runs w
                (mkValidator (Path.of_str (arg_xsd args)) compiled) args s0)
      as (results & s1 & -> & Hall).
    assert (Hcoherent :
              Exists (fun r => valid r = false \/ well_formed r = false)
                     results -> any_invalid results = true).
    { intros Hex. apply any_invalid_true.
      apply Exists_exists in Hex. destruct Hex as (r & Hin & Hr).
      apply Exists_exists. exists r. split; [exact Hin|].
      destruct Hr as [Hr|Hr]; [exact Hr|].
      rewrite Forall_forall in Hall. destruct (Hall r Hin) as (p & Hp).
      destruct (valid r) eqn:Hvalid; [|reflexivity].
      destruct (result_of_file_valid _ _ _ _ Hp Hvalid). congruence. }
    split.
    + intros Hex. apply Hcoherent in Hex.
      destruct (generate_report_runs w results (arg_format args)
                  (arg_output args) s1)
        as [(e & s2 & _ & _ & ->)|(report & s2 & _ & ->)]; simpl.
      * reflexivity.
      * now rewrite Hex.
    + intros Hvalid Hsink. apply any_invalid_false in Hvalid.
      destruct (generate_report_runs w results (arg_format args)
                  (arg_output args) s1)
        as [(e & s2 & Hgiven & Hopen & _)|(report & s2 & _ & ->)]; simpl.
      * specialize (Hsink Hgiven). congruence.
      * now rewrite Hvalid.
  - rewrite Hload. simpl. split; reflexivity.
Qed.

Lemma main_exit_status_witness :
  (Exists (fun r => valid r = false \/ well_formed r = false)
          (processed_results sample_world invalid_file_args) ->
   exit_status (main sample_world invalid_file_args) = 1)
  /\ (Forall (fun r => valid r = true)
             (processed_results sample_world invalid_file_args) ->
      report_sink_ok sample_world invalid_file_args ->
      exit_status (main sample_world invalid_file_args) = 0).
Proof.
  apply (main_exit_status sample_world invalid_file_args).
  reflexivity.
Defined.

(** C5 as stated fails: the exit status of a run whose schema does not load
    is 1, the very status of a run whose schema loads and whose one document
    is invalid. *)
Lemma schema_failure_status_is_not_distinct :
  (exists e, schema_of_args sample_world broken_schema_args = inr e)
  /\ exit_status (main sample_world broken_schema_args) = 1
  /\ (exists compiled,
         schema_of_args sample_world invalid_file_args = inl compiled)
  /\ Exists (fun r => valid r = false)
            (processed_results sample_world invalid_file_args)
  /\ exit_status (main sample_world invalid_file_args) = 1
  /\ ~ (exit_status (main sample_world broken_schema_args)
        <> exit_status (main sample_world invalid_file_args)).
Proof.
  split; [eexists; reflexivity|].
  split; [reflexivity|].
  split; [eexists; reflexivity|].
  split; [constructor; reflexivity|].
  split; [reflexivity|].
  intros H. now apply H.
Qed.

(** ** Properties of the reports *)

Lemma sum_ones_filter {A} (p : A -> bool) (xs : list A) :
  sum_ones p xs = Z.of_nat (List.length (filter p xs)).
Proof.
  induction xs as [|x xs IH]; simpl; [reflexivity|].
  rewrite IH. destruct (p x); simpl List.length; lia.
Qed.

Lemma sum_ones_complement {A} (p : A -> bool) (xs : list A) :
  sum_ones p xs + sum_ones (fun x => negb (p x)) xs = len xs.
Proof.
  unfold len. induction xs as [|x xs IH]; simpl; [reflexivity|].
  destruct (p x); simpl negb; cbv iota; lia.
Qed.

Lemma truthy_zero (v : option Z) : v = Some 0 -> truthy v = false.
Proof. now intros ->. Qed.

(** C10. In the text report the [Line:] entry of an error is present
    exactly when its line is truthy, and likewise the [Column:] entry; in
    the HTML report the location suffix is empty unless the line is truthy,
    and names the column only inside that suffix. A line or column equal to
    0 is not truthy, so it is left out although the record has the field. *)
Theorem position_shown_only_when_truthy :
  forall (i : Z) (e : ErrorRecord),
    (* a position equal to 0 is not truthy *)
    (error_get_line e = Some 0 -> truthy (error_get_line e) = false)
    /\ (error_get_column e = Some 0 -> truthy (error_get_column e) = false)
    (* text *)
    /\ (truthy (error_get_line e) = false ->
        forall ln, In ln (text_error_lines (i, e)) ->
                   prefix "    Line: " ln = false)
    /\ (truthy (error_get_column e) = false ->
        forall ln, In ln (text_error_lines (i, e)) ->
                   prefix "    Column: " ln = false)
    /\ (truthy (error_get_line e) = true ->
        In ("    Line: " ++ show (error_get_line e))
           (text_error_lines (i, e)))
    /\ (truthy (error_get_column e) = true ->
        In ("    Column: " ++ show (error_get_column e))
           (text_error_lines (i, e)))
    (* HTML *)
    /\ (truthy (error_get_line e) = false -> html_location e = "")
    /\ (truthy (error_get_line e) = true ->
        truthy (error_get_column e) = false ->
        html_location e = " (Line " ++ show (error_get_line e) ++ ")")
    /\ (truthy (error_get_line e) = true ->
        truthy (error_get_column e) = true ->
        html_location e
        = " (Line " ++ show (error_get_line e)
          ++ ", Column " ++ show (error_get_column e) ++ ")").
Proof.
  intros i e.
  split; [apply truthy_zero|]. split; [apply truthy_zero|].
  unfold text_error_lines, html_location.
  repeat split.
  - intros -> ln Hin.
    destruct (truthy (error_get_column e)); simpl in Hin;
      repeat (destruct Hin as [<-|Hin]; [reflexivity|]); contradiction.
  - intros -> ln Hin.
    destruct (truthy (error_get_line e)); simpl in Hin;
      repeat (destruct Hin as [<-|Hin]; [reflexivity|]); contradiction.
  - intros ->. simpl. auto.
  - intros ->. destruct (truthy (error_get_line e)); simpl; auto 6.
  - now intros ->.
  - now intros -> ->.
  - now intros -> ->.
Qed.

(** ** Properties of the directory traversal *)

Lemma fnmatch_star (pat name : string) :
  fnmatch (String "*" pat) name
  = (fnmatch pat name
     || match name with
        | EmptyString => false
        | String _ name' => fnmatch (String "*" pat) name'
        end)%bool.
Proof. destruct name; reflexivity. Qed.

Lemma fnmatch_dot_xml (name : string) :
  fnmatch ".xml" name = true <-> name = ".xml".
Proof.
  split; [|now intros ->].
  destruct name as [|c1 [|c2 [|c3 [|c4 [|c5 rest]]]]];
    cbn -[Ascii.eqb]; intros H; try discriminate H;
    repeat (apply andb_true_iff in H; destruct H as [? H]);
    try discriminate H;
    repeat match goal with
           | E : (_ =? _)%char = true |- _ => apply Ascii.eqb_eq in E; subst
           end;
    reflexivity.
Qed.

(** The pattern [*.xml] matches exactly the names that end in [.xml]. *)
Lemma fnmatch_xml (name : string) :
  fnmatch "*.xml" name = true <-> ends_with ".xml" name.
Proof.
  split.
  - induction name as [|c name IH]; rewrite fnmatch_star, orb_true_iff.
    + intros [H|H]; [|discriminate]. apply fnmatch_dot_xml in H. discriminate.
    + intros [H|H].
      * apply fnmatch_dot_xml in H. exists "". now rewrite H.
      * destruct (IH H) as (stem & ->). now exists (String c stem).
  - intros (stem & ->). induction stem as [|c stem IH].
    + reflexivity.
    + simpl append. rewrite fnmatch_star, orb_true_iff. now right.
Qed.

Lemma select_from_nil (e : entry) (prefix : list string) :
  select_from e [] prefix = [prefix].
Proof. destruct e; reflexivity. Qed.

(** A wildcard as the last component selects the matching entries of the
    directory, of any kind, and nothing below them. *)
Lemma select_wildcard (n : string) (children : list entry) (pat : string)
    (prefix : list string) :
  select_from (Dir n children) [Wildcard pat] prefix
  = map (fun c => (prefix ++ [entry_name c])%list)
        (filter (fun c => fnmatch pat (entry_name c)) children).
Proof.
  simpl. induction children as [|c children IH]; simpl; [reflexivity|].
  rewrite IH. destruct (fnmatch pat (entry_name c)); simpl.
  - now rewrite select_from_nil.
  - reflexivity.
Qed.

Lemma select_recursive_unfold (n : string) (children : list entry)
    (pat : string) (prefix : list string) :
  select_from (Dir n children) [Recursive; Wildcard pat] prefix
  = (select_from (Dir n children) [Wildcard pat] prefix
     ++ flat_map
          (fun c =>
             match c with
             | Dir _ _ =>
                 select_from c [Recursive; Wildcard pat]
                             (prefix ++ [entry_name c])
             | File _ => []
             end)
          children)%list.
Proof. reflexivity. Qed.

(** [**] followed by a wildcard selects the matching entries at every
    depth. *)
Lemma select_recursive (pat : string) :
  forall (e : entry) (prefix rel : list string),
    In rel (select_from e [Recursive; Wildcard pat] prefix)
    <-> exists n children rel' t,
          e = Dir n children
          /\ rel = (prefix ++ rel')%list
          /\ reaches children rel' t
          /\ fnmatch pat (entry_name t) = true.
Proof.
  induction e as [n|n children IH] using entry_tree_ind; intros prefix rel.
  - simpl. split; [contradiction|].
    intros (? & ? & ? & ? & H & _). discriminate H.
  - rewrite select_recursive_unfold, in_app_iff, select_wildcard.
    rewrite in_map_iff, in_flat_map. split.
    + intros [(c & <- & Hc)|(c & Hin & Hc)].
      * apply filter_In in Hc. destruct Hc as [Hin Hmatch].
        exists n, children, [entry_name c], c.
        repeat split; auto. now constructor.
      * rewrite Forall_forall in IH. specialize (IH c Hin).
        destruct c as [m|m grandchildren]; [contradiction|].
        apply IH in Hc.
        destruct Hc as (n' & cs & rel' & t & [= <- <-] & -> & Hreach & Hm).
        exists n, children, (m :: rel'), t.
        repeat split; auto.
        -- simpl. now rewrite <- app_assoc.
        -- now apply reaches_below with (children := grandchildren).
    + intros (n' & cs & rel' & t & [= <- <-] & -> & Hreach & Hm).
      inversion Hreach as [? ? Hin|? d grandchildren rel'' ? Hin Hbelow];
        subst.
      * left. exists t. split; [reflexivity|].
        apply filter_In. now split.
      * right. exists (Dir d grandchildren). split; [exact Hin|].
        rewrite Forall_forall in IH. apply (IH _ Hin).
        exists d, grandchildren, rel'', t.
        repeat split; auto. simpl. now rewrite <- app_assoc.
Qed.

Lemma result_of_file_path (w : World) (schema : XMLSchema) (p : pathlike)
    (r : ValidationResult) :
  result_of_file w schema p r -> file r = str_of_pathlike p.
Proof.
  intros (s & s' & Hrun).
  destruct (validate_file_returns w schema p s) as (r' & s'' & Hrun' & Hfile).
  rewrite Hrun in Hrun'. now injection Hrun' as -> _.
Qed.

(** The results of [validate_directory] are, in order, those of the paths
    the glob selects. *)
Lemma validate_directory_files (w : World) (schema : XMLSchema)
    (directory_path : string) (recursive : bool) (s : Sys) :
  exists (results : list ValidationResult) (s' : Sys),
    validate_directory w schema directory_path recursive s = (Val results, s')
    /\ map file results
       = map (fun rel =>
                Path.to_str (Path.joinpath (Path.of_str directory_path) rel))
             (glob_relative w (Path.of_str directory_path)
                            (glob_pattern recursive)).
Proof.
  destruct (validate_directory_runs w schema directory_path recursive s)
    as (results & s' & Hrun & Hall).
  exists results, s'. split; [exact Hrun|].
  unfold glob in Hall. clear Hrun.
  remember (glob_relative w (Path.of_str directory_path)
                          (glob_pattern recursive)) as rels eqn:E.
  clear E. revert results Hall.
  induction rels as [|rel rels IH]; intros results Hall;
    inversion Hall as [|? r ? rs Hr Hrest]; subst; simpl; [reflexivity|].
  apply result_of_file_path in Hr. simpl in Hr.
  rewrite Hr. f_equal. now apply IH.
Qed.

Lemma glob_relative_flat (w : World) (directory : Path.t) :
  glob_relative w directory (glob_pattern false)
  = map (fun e => [entry_name e])
        (filter (fun e => fnmatch "*.xml" (entry_name e))
                (listdir w (Path.to_str directory))).
Proof.
  unfold glob_relative, glob_pattern.
  change (pattern_parts "*.xml") with [Wildcard "*.xml"].
  apply select_wildcard.
Qed.

Lemma glob_relative_deep (w : World) (directory : Path.t)
    (rel : list string) :
  In rel (glob_relative w directory (glob_pattern true))
  <-> exists e, reaches (listdir w (Path.to_str directory)) rel e
                /\ fnmatch "*.xml" (entry_name e) = true.
Proof.
  unfold glob_relative, glob_pattern.
  change (pattern_parts "**/*.xml") with [Recursive; Wildcard "*.xml"].
  rewrite select_recursive. split.
  - intros (n & children & rel' & t & [= _ <-] & -> & Hreach & Hm).
    now exists t.
  - intros (e & Hreach & Hm).
    exists (Path.name directory), (listdir w (Path.to_str directory)), rel, e.
    now repeat split.
Qed.

Lemma reaches_last (entries : list entry) (rel : list string) (e : entry) :
  reaches entries rel e -> last rel "" = entry_name e.
Proof.
  induction 1 as [entries e _|entries d children rel e _ Hreach IH].
  - reflexivity.
  - simpl. destruct rel; [inversion Hreach|exact IH].
Qed.

Lemma last_char_append (s t : string) :
  t <> "" -> last_char (s ++ t) = last_char t.
Proof.
  intros Ht. induction s as [|c s IH]; [reflexivity|].
  simpl append. simpl last_char. rewrite IH.
  destruct (s ++ t) eqn:E; [|reflexivity].
  destruct s; simpl in E; [contradiction|discriminate].
Qed.


(** C9. The candidates of [validate_directory] are selected by the pattern
    [*.xml], or [**/*.xml] when recursive: an entry in reach (directly under
    the directory, or at any depth when recursive) is validated exactly when
    its name ends in [.xml]. Matching is case-sensitive, so a name ending in
    [.XML] is not selected. *)
Theorem only_xml_suffix_selected :
  forall (w : World) (schema : XMLSchema) (directory_path : string)
         (recursive : bool) (s : Sys),
    let directory := Path.of_str directory_path in
    let entries := listdir w (Path.to_str directory) in
    glob_pattern recursive = (if recursive then "**/*.xml" else "*.xml")
    /\ (exists (results : list ValidationResult) (s' : Sys)
               (rels : list (list string)),
           validate_directory w schema directory_path recursive s
           = (Val results, s')
           /\ map file results
              = map (fun rel => Path.to_str (Path.joinpath directory rel))
                    rels
           /\ forall rel e,
                reaches entries rel e ->
                (recursive = false -> rel = [entry_name e]) ->
                (In rel rels <-> ends_with ".xml" (entry_name e)))
    /\ (forall name, fnmatch "*.xml" name = true <-> ends_with ".xml" name)
    /\ (forall stem, fnmatch "*.xml" (stem ++ ".XML") = false).
Proof.
  intros w schema directory_path recursive s directory entries.
  split; [reflexivity|]. split; [|split].
  - destruct (validate_directory_files w schema directory_path recursive s)
      as (results & s' & Hrun & Hfiles).
    exists results, s', (glob_relative w directory (glob_pattern recursive)).
    split; [exact Hrun|]. split; [exact Hfiles|].
    intros rel e Hreach Hflat. rewrite <- fnmatch_xml.
    destruct recursive.
    + rewrite glob_relative_deep. split.
      * intros (t & Hreach' & Hm).
        apply reaches_last in Hreach, Hreach'. congruence.
      * intros Hm. now exists e.
    + rewrite glob_relative_flat, in_map_iff, (Hflat eq_refl). split.
      * intros (t & [= Hname] & Ht). apply filter_In in Ht.
        rewrite <- Hname. apply Ht.
      * intros Hm. exists e. split; [reflexivity|].
        apply filter_In. split; [|exact Hm].
        inversion Hreach as [? ? Hin|? ? ? ? ? ? Hbelow]; subst; [exact Hin|].
        specialize (Hflat eq_refl). injection Hflat as _ ->.
        inversion Hbelow.
  - apply fnmatch_xml.
  - intros stem. destruct (fnmatch "*.xml" (stem ++ ".XML")) eqn:E;
      [|reflexivity].
    apply fnmatch_xml in E. destruct E as (stem' & E).
    apply (f_equal last_char) in E.
    rewrite !last_char_append in E by discriminate. discriminate E.
Qed.

(** ** [json.loads] undoes [json.dumps] *)

Lemma append_assoc (a b c : string) : (a ++ b) ++ c = a ++ b ++ c.
Proof. induction a as [|x a IH]; simpl; [reflexivity|now rewrite IH]. Qed.

Lemma append_nil_r (a : string) : a ++ "" = a.
Proof. induction a as [|x a IH]; simpl; [reflexivity|now rewrite IH]. Qed.

Lemma length_append (a b : string) :
  String.length (a ++ b) = (String.length a + String.length b)%nat.
Proof. induction a as [|x a IH]; simpl; [reflexivity|now rewrite IH]. Qed.

(** *** Numbers *)

Lemma span_digits_uint (d : Decimal.uint) (rest : string) :
  number_ends rest = true ->
  span_digits (NilEmpty.string_of_uint d ++ rest)
  = (NilEmpty.string_of_uint d, rest).
Proof.
  intros Hrest. induction d as [|d IH|d IH|d IH|d IH|d IH|d IH|d IH|d IH|d IH|d IH];
    try (simpl; rewrite IH; reflexivity).
  simpl. destruct rest as [|c rest]; [reflexivity|].
  simpl in Hrest. apply andb_true_iff in Hrest. destruct Hrest as [Hc _].
  simpl. apply negb_true_iff in Hc. now rewrite Hc.
Qed.

Lemma number_ends_not_float (rest : string) :
  number_ends rest = true -> starts_float_part rest = false.
Proof.
  destruct rest as [|c rest]; [reflexivity|].
  unfold number_ends. intros H. apply andb_true_iff in H.
  destruct H as [_ H]. now apply negb_true_iff in H.
Qed.

(** The decimal digits of a positive number start with a digit other
    than 0. *)
Lemma to_uint_head (p : positive) :
  Pos.to_uint p <> Decimal.Nil
  /\ forall d, Pos.to_uint p <> Decimal.D0 d.
Proof.
  split; [apply DecimalPos.Unsigned.to_uint_nonnil|].
  intros d Hd.
  assert (Hnorm : Pos.to_uint p = Decimal.unorm (Pos.to_uint p)).
  { rewrite <- DecimalPos.Unsigned.to_of, DecimalPos.Unsigned.of_to.
    reflexivity. }
  destruct (Decimal.nzhead (Pos.to_uint p)) eqn:Hhead;
    [ apply (DecimalPos.Unsigned.to_uint_nonzero p);
      apply DecimalFacts.unorm_0 in Hhead; congruence
    | rewrite DecimalFacts.unorm_nzhead in Hnorm by congruence;
      apply (DecimalFacts.nzhead_nonzero (Pos.to_uint p) d); congruence .. ].
Qed.

Lemma span_integer_uint (d : Decimal.uint) (rest : string) :
  (forall d', d <> Decimal.D0 d') ->
  number_ends rest = true ->
  span_integer (NilEmpty.string_of_uint d ++ rest)
  = (NilEmpty.string_of_uint d, rest).
Proof.
  intros Hhead Hrest.
  rewrite <- (span_digits_uint d rest Hrest).
  destruct d; try reflexivity.
  - simpl. destruct rest as [|c rest]; [reflexivity|].
    simpl in Hrest. apply andb_true_iff in Hrest. destruct Hrest as [Hc _].
    apply negb_true_iff in Hc.
    unfold span_integer.
    destruct c as [[|] [|] [|] [|] [|] [|] [|] [|]]; try reflexivity;
      discriminate Hc.
  - now contradiction (Hhead d).
Qed.

(** Scanning the digits of a positive number gives the number back. *)
Lemma scan_digits_pos (p : positive) (rest : string) :
  number_ends rest = true ->
  span_integer (NilZero.string_of_uint (Pos.to_uint p) ++ rest)
  = (NilZero.string_of_uint (Pos.to_uint p), rest)
  /\ NilZero.uint_of_string (NilZero.string_of_uint (Pos.to_uint p))
     = Some (Pos.to_uint p)
  /\ Z.of_uint (Pos.to_uint p) = Z.pos p
  /\ exists c tail,
       NilZero.string_of_uint (Pos.to_uint p) = String c tail
       /\ is_digit c = true.
Proof.
  intros Hrest. destruct (to_uint_head p) as [Hnil Hzero].
  assert (Hstr : NilZero.string_of_uint (Pos.to_uint p)
                 = NilEmpty.string_of_uint (Pos.to_uint p)).
  { now destruct (Pos.to_uint p). }
  rewrite Hstr. split; [now apply span_integer_uint|].
  split; [rewrite <- Hstr; now apply NilZero.usu|].
  split.
  - unfold Z.of_uint. now rewrite DecimalPos.Unsigned.of_to.
  - destruct (Pos.to_uint p); try contradiction;
      simpl; eexists; eexists; split; reflexivity.
Qed.

(** Scanning the text of an integer gives the integer back. *)
Lemma scan_int_str_of_int (z : Z) (rest : string) :
  number_ends rest = true ->
  scan_int (str_of_int z ++ rest) = Some (z, rest).
Proof.
  intros Hrest. pose proof (number_ends_not_float rest Hrest) as Hfloat.
  destruct z as [|p|p]; unfold str_of_int; simpl Z.to_int;
    simpl NilZero.string_of_int.
  - unfold scan_int. simpl. now rewrite Hfloat.
  - destruct (scan_digits_pos p rest Hrest)
      as (Hspan & Hback & Hval & c & tail & Hhead & Hc).
    unfold scan_int.
    assert (Hsign :
              match NilZero.string_of_uint (Pos.to_uint p) ++ rest with
              | String "-" r => (true, r)
              | _ => (false, NilZero.string_of_uint (Pos.to_uint p) ++ rest)
              end
              = (false, NilZero.string_of_uint (Pos.to_uint p) ++ rest)).
    { rewrite Hhead. simpl.
      destruct c as [[|] [|] [|] [|] [|] [|] [|] [|]]; try reflexivity;
        discriminate Hc. }
    rewrite Hsign, Hspan, Hfloat, Hback, Hval. reflexivity.
  - destruct (scan_digits_pos p rest Hrest)
      as (Hspan & Hback & Hval & _).
    unfold scan_int. simpl append. cbv iota beta.
    rewrite Hspan, Hfloat, Hback, Hval. reflexivity.
Qed.

(** *** Strings *)

(** Scanning what stands for one character gives that character back. *)
Lemma scan_escape_char (c : ascii) (tail : string) :
  scan_string (escape_char c ++ tail) = prepend c (scan_string tail).
Proof.
  destruct c as [[|] [|] [|] [|] [|] [|] [|] [|]]; reflexivity.
Qed.

Lemma scan_escape_string (s rest : string) :
  scan_string (escape_string s ++ dq ++ rest) = Some (s, rest).
Proof.
  induction s as [|c s IH].
  - reflexivity.
  - simpl escape_string. rewrite append_assoc, scan_escape_char, IH.
    reflexivity.
Qed.

(** *** Values *)

Lemma well_keyed_list (items : list pyval) :
  well_keyed (PyList items) <-> Forall well_keyed items.
Proof.
  simpl. induction items as [|v items IH].
  - split; [constructor|exact (fun _ => I)].
  - rewrite IH. split.
    + intros [Hv Hrest]. now constructor.
    + intros H. inversion H. now split.
Qed.

Lemma well_keyed_dict (fields : list (string * pyval)) :
  well_keyed (PyDict fields)
  <-> NoDup (map fst fields) /\ Forall (fun kv => well_keyed (snd kv)) fields.
Proof.
  simpl. apply and_iff_compat_l.
  induction fields as [|kv fields IH].
  - split; [constructor|exact (fun _ => I)].
  - rewrite IH. split.
    + intros [Hv Hrest]. now constructor.
    + intros H. inversion H. now split.
Qed.

Lemma weight_list (items : list pyval) :
  weight (PyList items) = S (items_weight items).
Proof. reflexivity. Qed.

Lemma weight_dict (fields : list (string * pyval)) :
  weight (PyDict fields) = S (fields_weight fields).
Proof. reflexivity. Qed.

Lemma dumps_list (level : nat) (v : pyval) (vs : list pyval) :
  json_dumps_at level (PyList (v :: vs))
  = "[" ++ newline_indent (S level) ++ items_text (S level) (v :: vs)
    ++ newline_indent level ++ "]".
Proof. reflexivity. Qed.

Lemma dumps_dict (level : nat) (kv : string * pyval)
    (fields : list (string * pyval)) :
  json_dumps_at level (PyDict (kv :: fields))
  = "{" ++ newline_indent (S level) ++ members_text (S level) (kv :: fields)
    ++ newline_indent level ++ "}".
Proof. reflexivity. Qed.

Lemma skip_ws_newline_indent (level : nat) (s : string) :
  skip_ws (newline_indent level ++ s) = skip_ws s.
Proof.
  unfold newline_indent, nl. simpl.
  induction level as [|level IH]; simpl; [reflexivity|exact IH].
Qed.

Lemma value_head_not_ws (c : ascii) (tail : string) :
  value_head c = true -> skip_ws (String c tail) = String c tail.
Proof.
  destruct c as [[|] [|] [|] [|] [|] [|] [|] [|]];
    try discriminate; reflexivity.
Qed.

Lemma str_of_int_head (z : Z) :
  exists c tail,
    str_of_int z = String c tail
    /\ (is_digit c = true \/ c = "-"%char).
Proof.
  destruct z as [|p|p]; unfold str_of_int; simpl Z.to_int;
    simpl NilZero.string_of_int.
  - exists "0"%char, "". now split; [|left].
  - destruct (scan_digits_pos p "" eq_refl) as (_ & _ & _ & c & tail & H & Hc).
    exists c, tail. split; [exact H|now left].
  - eexists; eexists. split; [reflexivity|now right].
Qed.

(** The text of a value starts with a character that tells its kind. *)
Lemma dumps_head (v : pyval) (level : nat) (rest : string) :
  exists c tail,
    json_dumps_at level v ++ rest = String c tail /\ value_head c = true.
Proof.
  destruct v as [|[|]|n|s|[|v vs]|[|kv fields]];
    try (eexists; eexists; split; [reflexivity|reflexivity]).
  destruct (str_of_int_head n) as (c & tail & Hn & Hc).
  exists c, (tail ++ rest). simpl. rewrite Hn. split; [reflexivity|].
  destruct Hc as [Hc| ->]; [|reflexivity].
  unfold value_head. now rewrite Hc.
Qed.

Lemma skip_ws_dumps (v : pyval) (level : nat) (rest : string) :
  skip_ws (json_dumps_at level v ++ rest) = json_dumps_at level v ++ rest.
Proof.
  destruct (dumps_head v level rest) as (c & tail & -> & Hc).
  now apply value_head_not_ws.
Qed.

Lemma newline_indent_number_ends (level : nat) (s : string) :
  number_ends (newline_indent level ++ s) = true.
Proof. reflexivity. Qed.

Lemma scan_value_number (fuel : nat) (c : ascii) (tail : string) :
  is_digit c = true \/ c = "-"%char ->
  scan_value (S fuel) (String c tail)
  = match scan_int (String c tail) with
    | Some (n, after) => Some (PyInt n, after)
    | None => None
    end.
Proof.
  intros [Hc| ->]; [|reflexivity].
  destruct c as [[|] [|] [|] [|] [|] [|] [|] [|]];
    try discriminate Hc; reflexivity.
Qed.

Lemma scan_value_open_list (fuel : nat) (rest : string) (c : ascii)
    (tail : string) :
  skip_ws rest = String c tail ->
  value_head c = true ->
  scan_value (S fuel) (String "[" rest)
  = match scan_items fuel (String c tail) with
    | Some (items, after) => Some (PyList items, after)
    | None => None
    end.
Proof.
  intros Hskip Hc.
  change (scan_value (S fuel) (String "[" rest))
    with (match skip_ws rest with
          | String "]" after => Some (PyList [], after)
          | body =>
              match scan_items fuel body with
              | Some (items, after) => Some (PyList items, after)
              | None => None
              end
          end).
  rewrite Hskip.
  destruct c as [[|] [|] [|] [|] [|] [|] [|] [|]];
    try discriminate Hc; reflexivity.
Qed.

Lemma scan_value_open_dict (fuel : nat) (rest tail : string) :
  skip_ws rest = String "034" tail ->
  scan_value (S fuel) (String "{" rest)
  = match scan_members fuel (String "034" tail) with
    | Some (members, after) => Some (PyDict (dict_of_members members), after)
    | None => None
    end.
Proof.
  intros Hskip.
  change (scan_value (S fuel) (String "{" rest))
    with (match skip_ws rest with
          | String "}" after => Some (PyDict [], after)
          | body =>
              match scan_members fuel body with
              | Some (members, after) =>
                  Some (PyDict (dict_of_members members), after)
              | None => None
              end
          end).
  now rewrite Hskip.
Qed.

Lemma scan_items_step (fuel : nat) (s : string) :
  scan_items (S fuel) s
  = match scan_value fuel s with
    | None => None
    | Some (v, after) =>
        match skip_ws after with
        | String "]" tail => Some ([v], tail)
        | String "," more =>
            match scan_items fuel (skip_ws more) with
            | Some (vs, tail) => Some (v :: vs, tail)
            | None => None
            end
        | _ => None
        end
    end.
Proof. reflexivity. Qed.

Lemma scan_members_step (fuel : nat) (rest : string) :
  scan_members (S fuel) (String "034" rest)
  = match scan_string rest with
    | None => None
    | Some (key, after_key) =>
        match skip_ws after_key with
        | String ":" after_colon =>
            match scan_value fuel (skip_ws after_colon) with
            | None => None
            | Some (v, after) =>
                match skip_ws after with
                | String "}" tail => Some ([(key, v)], tail)
                | String "," more =>
                    match scan_members fuel (skip_ws more) with
                    | Some (kvs, tail) => Some ((key, v) :: kvs, tail)
                    | None => None
                    end
                | _ => None
                end
            end
        | _ => None
        end
    end.
Proof. reflexivity. Qed.

Lemma items_text_cons (level : nat) (v v' : pyval) (vs : list pyval) :
  items_text level (v :: v' :: vs)
  = json_dumps_at level v ++ ("," ++ newline_indent level)
    ++ items_text level (v' :: vs).
Proof. reflexivity. Qed.

Lemma members_text_cons (level : nat) (kv kv' : string * pyval)
    (fields : list (string * pyval)) :
  members_text level (kv :: kv' :: fields)
  = member_text level kv ++ ("," ++ newline_indent level)
    ++ members_text level (kv' :: fields).
Proof. reflexivity. Qed.

(** The items of a list are decoded one after the other, up to the closing
    bracket. *)
Lemma scan_items_text :
  forall (vs : list pyval) (v : pyval),
    Forall decodes (v :: vs) ->
    forall (level outer : nat) (rest : string) (fuel : nat),
      (items_weight (v :: vs) <= fuel)%nat ->
      scan_items fuel
        (items_text level (v :: vs) ++ newline_indent outer ++ "]" ++ rest)
      = Some (v :: vs, rest).
Proof.
  induction vs as [|v' vs IH]; intros v Hall level outer rest fuel Hfuel;
    inversion Hall as [|? ? Hv Hvs]; subst;
    destruct fuel as [|fuel]; simpl in Hfuel; try lia;
    rewrite scan_items_step.
  - unfold items_text. simpl join.
    rewrite Hv by (try apply newline_indent_number_ends; lia).
    rewrite skip_ws_newline_indent. reflexivity.
  - rewrite items_text_cons, !append_assoc.
    rewrite Hv by (try reflexivity; lia).
    match goal with
    | |- context [skip_ws ("," ++ ?y)] =>
        change (skip_ws ("," ++ y)) with (String "," y)
    end.
    cbv iota. rewrite skip_ws_newline_indent.
    destruct (dumps_head v' level
                (match vs with
                 | [] => ""
                 | _ => ("," ++ newline_indent level)
                        ++ items_text level vs
                 end ++ newline_indent outer ++ "]" ++ rest))
      as (c & tail & Hhead & Hc).
    assert (Hshape :
              items_text level (v' :: vs) ++ newline_indent outer ++ "]" ++ rest
              = String c tail).
    { rewrite <- Hhead. destruct vs; [reflexivity|].
      rewrite items_text_cons, !append_assoc. reflexivity. }
    rewrite Hshape, (value_head_not_ws c tail Hc), <- Hshape.
    rewrite (IH v' Hvs level outer rest fuel) by (simpl; lia).
    reflexivity.
Qed.

Lemma member_text_shape (level : nat) (kv : string * pyval) (rest : string) :
  member_text level kv ++ rest
  = String "034"
      (escape_string (fst kv) ++ dq
       ++ String ":" (String " " (json_dumps_at level (snd kv) ++ rest))).
Proof.
  unfold member_text, json_string.
  rewrite !append_assoc. reflexivity.
Qed.

(** The members of a dict are decoded one after the other, up to the
    closing brace. *)
Lemma scan_members_text :
  forall (fields : list (string * pyval)) (kv : string * pyval),
    Forall (fun kv => decodes (snd kv)) (kv :: fields) ->
    forall (level outer : nat) (rest : string) (fuel : nat),
      (fields_weight (kv :: fields) <= fuel)%nat ->
      scan_members fuel
        (members_text level (kv :: fields)
         ++ newline_indent outer ++ "}" ++ rest)
      = Some (kv :: fields, rest).
Proof.
  induction fields as [|kv' fields IH];
    intros kv Hall level outer rest fuel Hfuel;
    inversion Hall as [|? ? Hv Hvs]; subst;
    destruct fuel as [|fuel]; simpl in Hfuel; try lia.
  - unfold members_text. simpl join.
    rewrite member_text_shape, scan_members_step, scan_escape_string.
    change (skip_ws (String ":" ?y)) with (String ":" y). cbv iota.
    change (skip_ws (String " " ?y)) with (skip_ws y).
    rewrite skip_ws_dumps.
    rewrite Hv by (try apply newline_indent_number_ends; lia).
    rewrite skip_ws_newline_indent. now destruct kv.
  - rewrite members_text_cons, !append_assoc.
    rewrite member_text_shape, scan_members_step, scan_escape_string.
    change (skip_ws (String ":" ?y)) with (String ":" y). cbv iota.
    change (skip_ws (String " " ?y)) with (skip_ws y).
    rewrite skip_ws_dumps.
    rewrite Hv by (try reflexivity; lia).
    match goal with
    | |- context [skip_ws ("," ++ ?y)] =>
        change (skip_ws ("," ++ y)) with (String "," y)
    end.
    cbv iota. rewrite skip_ws_newline_indent.
    assert (Hshape :
              exists tail,
                members_text level (kv' :: fields)
                ++ newline_indent outer ++ "}" ++ rest
                = String "034" tail).
    { destruct fields; [unfold members_text; simpl join
                       |rewrite members_text_cons, !append_assoc];
        rewrite member_text_shape; eexists; reflexivity. }
    destruct Hshape as (tail & Hshape).
    rewrite Hshape.
    change (skip_ws (String "034" tail)) with (String "034" tail).
    rewrite <- Hshape.
    rewrite (IH kv' Hvs level outer rest fuel) by (simpl; lia).
    now destruct kv.
Qed.

Lemma dict_set_fresh (key : string) (v : pyval)
    (fields : list (string * pyval)) :
  ~ In key (map fst fields) ->
  dict_set key v fields = (fields ++ [(key, v)])%list.
Proof.
  induction fields as [|[k old] fields IH]; intros Hfresh; [reflexivity|].
  simpl in *. destruct (String.eqb_spec k key) as [->|_].
  - exfalso. apply Hfresh. now left.
  - rewrite IH; [reflexivity|]. intros Hin. apply Hfresh. now right.
Qed.

(** Members with distinct keys make the dict that lists them in order. *)
Lemma dict_of_members_distinct (members : list (string * pyval)) :
  NoDup (map fst members) -> dict_of_members members = members.
Proof.
  unfold dict_of_members.
  assert (Hgen : forall acc,
             NoDup (map fst (acc ++ members)) ->
             fold_left (fun d kv => dict_set (fst kv) (snd kv) d) members acc
             = (acc ++ members)%list).
  { induction members as [|[k v] members IH]; intros acc Hnodup; simpl.
    - now rewrite app_nil_r.
    - rewrite dict_set_fresh.
      + rewrite IH; rewrite <- app_assoc; [reflexivity|exact Hnodup].
      + rewrite map_app in Hnodup. simpl in Hnodup.
        apply NoDup_remove_2 in Hnodup.
        intros Hin. apply Hnodup. apply in_or_app. now left. }
  intros Hnodup. now apply (Hgen []).
Qed.

Lemma items_text_head (level : nat) (v : pyval) (vs : list pyval)
    (rest : string) :
  exists c tail,
    items_text level (v :: vs) ++ rest = String c tail
    /\ value_head c = true.
Proof.
  destruct vs as [|v' vs].
  - apply dumps_head.
  - rewrite items_text_cons, append_assoc. apply dumps_head.
Qed.

(** Decoding the text of a value gives the value back, whatever the nesting
    level it was written at and whatever follows. *)
Lemma dumps_decodes : forall v : pyval, well_keyed v -> decodes v.
Proof.
  induction v as [|b|n|s|items IH|fields IH] using pyval_tree_ind;
    intros Hkeys level rest fuel Hfuel Hrest;
    (destruct fuel as [|fuel]; [simpl in Hfuel; lia|]).
  - reflexivity.
  - now destruct b.
  - simpl json_dumps_at.
    destruct (str_of_int_head n) as (c & tail & Hn & Hc).
    pose proof (scan_int_str_of_int n rest Hrest) as Hscan.
    rewrite Hn in *. simpl append in *.
    now rewrite scan_value_number, Hscan.
  - simpl json_dumps_at. unfold json_string. rewrite !append_assoc.
    change (scan_value (S fuel) (dq ++ ?x))
      with (match scan_string x with
            | Some (str, tail) => Some (PyStr str, tail)
            | None => None
            end).
    now rewrite scan_escape_string.
  - destruct items as [|v vs]; [reflexivity|].
    rewrite dumps_list, !append_assoc.
    change ("[" ++ ?x) with (String "[" x).
    destruct (items_text_head (S level) v vs
                (newline_indent level ++ "]" ++ rest))
      as (c & tail & Hshape & Hc).
    rewrite (scan_value_open_list fuel _ c tail);
      [|now rewrite skip_ws_newline_indent, Hshape, value_head_not_ws
       |exact Hc].
    rewrite <- Hshape, scan_items_text.
    + reflexivity.
    + apply well_keyed_list in Hkeys.
      rewrite Forall_forall in *. intros x Hx. apply IH; auto.
    + rewrite weight_list in Hfuel. lia.
  - destruct fields as [|kv kvs]; [reflexivity|].
    apply well_keyed_dict in Hkeys. destruct Hkeys as [Hnodup Hkeys].
    rewrite dumps_dict, !append_assoc.
    change ("{" ++ ?x) with (String "{" x).
    assert (Hshape :
              exists tail,
                members_text (S level) (kv :: kvs)
                ++ newline_indent level ++ "}" ++ rest
                = String "034" tail).
    { destruct kvs; [unfold members_text; simpl join
                    |rewrite members_text_cons, !append_assoc];
        rewrite member_text_shape; eexists; reflexivity. }
    destruct Hshape as (tail & Hshape).
    rewrite (scan_value_open_dict fuel _ tail);
      [|now rewrite skip_ws_newline_indent, Hshape].
    rewrite <- Hshape, scan_members_text.
    + now rewrite dict_of_members_distinct.
    + rewrite Forall_forall in *. intros x Hx. apply IH; auto.
    + rewrite weight_dict in Hfuel. lia.
Qed.

Lemma newline_indent_length (level : nat) :
  (1 <= String.length (newline_indent level))%nat.
Proof. unfold newline_indent, nl. simpl. lia. Qed.

Lemma items_weight_le_length (level : nat) (items : list pyval) :
  Forall
    (fun v => forall level,
         (weight v <= String.length (json_dumps_at level v))%nat) items ->
  (items_weight items <= S (String.length (items_text level items)))%nat.
Proof.
  induction items as [|v [|v' vs] IH]; intros Hall; [simpl; lia| |];
    inversion Hall as [|? ? Hv Hvs]; subst.
  - simpl. specialize (Hv level). unfold items_text. simpl join. lia.
  - specialize (IH Hvs). specialize (Hv level).
    rewrite items_text_cons, !length_append.
    pose proof (newline_indent_length level).
    change (items_weight (v :: v' :: vs))
      with (S (weight v + items_weight (v' :: vs))).
    simpl String.length at 2. lia.
Qed.

Lemma fields_weight_le_length (level : nat)
    (fields : list (string * pyval)) :
  Forall
    (fun kv => forall level,
         (weight (snd kv)
          <= String.length (json_dumps_at level (snd kv)))%nat) fields ->
  (fields_weight fields <= S (String.length (members_text level fields)))%nat.
Proof.
  induction fields as [|kv [|kv' kvs] IH]; intros Hall; [simpl; lia| |];
    inversion Hall as [|? ? Hv Hvs]; subst.
  - specialize (Hv level). unfold members_text, member_text.
    simpl join.
    repeat first [rewrite length_append | progress simpl String.length].
    change (fields_weight [kv]) with (S (weight (snd kv) + 0)). lia.
  - specialize (IH Hvs). specialize (Hv level).
    rewrite members_text_cons. unfold member_text at 1.
    rewrite !length_append.
    pose proof (newline_indent_length level).
    change (fields_weight (kv :: kv' :: kvs))
      with (S (weight (snd kv) + fields_weight (kv' :: kvs))).
    lia.
Qed.

(** The fuel the decoder takes from the length of the text is enough. *)
Lemma weight_le_length :
  forall (v : pyval) (level : nat),
    (weight v <= String.length (json_dumps_at level v))%nat.
Proof.
  induction v as [|b|n|s|items IH|fields IH] using pyval_tree_ind;
    intros level.
  - simpl. lia.
  - destruct b; simpl; lia.
  - simpl json_dumps_at. destruct (str_of_int_head n) as (c & tail & -> & _).
    simpl. lia.
  - simpl. lia.
  - destruct items as [|v vs]; [simpl; lia|].
    rewrite weight_list, dumps_list, !length_append.
    pose proof (items_weight_le_length (S level) (v :: vs) IH).
    pose proof (newline_indent_length level).
    pose proof (newline_indent_length (S level)).
    simpl String.length at 1. lia.
  - destruct fields as [|kv kvs]; [simpl; lia|].
    rewrite weight_dict, dumps_dict, !length_append.
    pose proof (fields_weight_le_length (S level) (kv :: kvs) IH).
    pose proof (newline_indent_length level).
    pose proof (newline_indent_length (S level)).
    simpl String.length at 1. lia.
Qed.

(** [json.loads(json.dumps(v, indent=2))] is [v]. *)
Lemma json_loads_dumps (v : pyval) :
  well_keyed v -> json_loads (json_dumps v) = Some v.
Proof.
  intros Hkeys. unfold json_loads, json_dumps.
  pose proof (skip_ws_dumps v 0 "") as Hskip.
  rewrite append_nil_r in Hskip. rewrite Hskip.
  pose proof (dumps_decodes v Hkeys 0%nat ""
                (S (String.length (json_dumps_at 0 v)))) as Hdecode.
  rewrite append_nil_r in Hdecode.
  rewrite Hdecode; [reflexivity| |reflexivity].
  pose proof (weight_le_length v 0). lia.
Qed.

(** *** The JSON report *)

Ltac distinct_keys :=
  repeat constructor; simpl; intuition discriminate.

Lemma error_to_py_well_keyed (e : ErrorRecord) : well_keyed (error_to_py e).
Proof.
  destruct e as [m [l|]|m l c d v|m|m]; simpl; (split; [distinct_keys|]);
    repeat split.
Qed.

Lemma result_to_py_well_keyed (r : ValidationResult) :
  well_keyed (result_to_py r).
Proof.
  apply well_keyed_dict. split; [distinct_keys|].
  repeat constructor; simpl; try exact I.
  apply (well_keyed_list (map error_to_py (errors r))).
  apply Forall_forall. intros v Hv. apply in_map_iff in Hv.
  destruct Hv as (e & <- & _). apply error_to_py_well_keyed.
Qed.

Lemma json_report_well_keyed (stamp : datetime)
    (results : list ValidationResult) :
  well_keyed (json_report stamp results).
Proof.
  apply well_keyed_dict. split; [distinct_keys|].
  repeat constructor; simpl; try exact I; try distinct_keys.
  apply (well_keyed_list (map result_to_py results)).
  apply Forall_forall. intros v Hv. apply in_map_iff in Hv.
  destruct Hv as (r & <- & _). apply result_to_py_well_keyed.
Qed.

(** Nothing of a result is lost in the dict that stands for it. *)
Lemma error_to_py_injective (e e' : ErrorRecord) :
  error_to_py e = error_to_py e' -> e = e'.
Proof.
  destruct e as [m [l|]|m l c d v|m|m], e' as [m' [l'|]|m' l' c' d' v'|m'|m'];
    simpl; intros H; try discriminate H; now inversion H.
Qed.

Lemma map_injective {A B} (f : A -> B) :
  (forall x y, f x = f y -> x = y) ->
  forall xs ys, map f xs = map f ys -> xs = ys.
Proof.
  intros Hf. induction xs as [|x xs IH]; intros [|y ys] H;
    try discriminate H; [reflexivity|].
  injection H as Hx Hrest. f_equal; auto.
Qed.

Lemma result_to_py_injective (r r' : ValidationResult) :
  result_to_py r = result_to_py r' -> r = r'.
Proof.
  destruct r, r'. unfold result_to_py. simpl. intros H.
  injection H as -> -> -> Herrors ->.
  apply (map_injective error_to_py error_to_py_injective) in Herrors.
  now subst.
Qed.

(** C7. The JSON report decodes to a document that holds, under [results],
    the dicts of the results in order, each as [validate_file] built it, and
    under [summary] the counts computed from the results: how many there
    are, how many are valid, how many are not. No two result sequences have
    the same encoding. *)
Theorem json_report_round_trip :
  forall (w : World) (results : list ValidationResult) (s : Sys),
  exists (text : string) (s' : Sys),
    _generate_json_report w results s = (Val text, s')
    /\ (exists decoded : list (string * pyval),
           json_loads text = Some (PyDict decoded)
           /\ lookup "results" decoded
              = Some (PyList (map result_to_py results))
           /\ lookup "summary" decoded
              = Some (PyDict [("total", PyInt (len results));
                              ("valid", PyInt (number_valid results));
                              ("invalid", PyInt (number_invalid results))])
           /\ lookup "generated" decoded
              = Some (PyStr (isoformat (clock w (ticks s)))))
    /\ (forall results' : list ValidationResult,
           map result_to_py results' = map result_to_py results ->
           results' = results).
Proof.
  intros w results s.
  unfold _generate_json_report, bind, now, ret.
  eexists; eexists. split; [reflexivity|]. split.
  - eexists. split.
    + rewrite json_loads_dumps by apply json_report_well_keyed.
      reflexivity.
    + unfold number_valid, number_invalid.
      rewrite <- !sum_ones_filter. repeat split.
  - intros results'.
    apply (map_injective result_to_py result_to_py_injective).
Qed.

(** *** The counts of the three reports *)

Lemma join_cons (sep x y : string) (xs : list string) :
  join sep (x :: y :: xs) = x ++ sep ++ join sep (y :: xs).
Proof. reflexivity. Qed.

Lemma number_valid_invalid (results : list ValidationResult) :
  len results = number_valid results + number_invalid results.
Proof.
  unfold number_valid, number_invalid. rewrite <- !sum_ones_filter.
  symmetry. apply sum_ones_complement.
Qed.

(** C6. Whatever the results, the number of results is the number of valid
    ones plus the number of invalid ones, and each of the three formats
    shows these three numbers: the text report in the lines
    [Total files validated:], [Valid:] and [Invalid:] of its header, the
    JSON report under [summary] once decoded, and the HTML report in the
    [Total Files], [Valid] and [Invalid] paragraphs of its summary block. *)
Theorem summary_counts_add_up :
  forall (w : World) (results : list ValidationResult) (s : Sys),
    let n_total := len results in
    let n_valid := number_valid results in
    let n_invalid := number_invalid results in
    let stamp := clock w (ticks s) in
    n_total = n_valid + n_invalid
    /\ (forall output_format : string,
           let counts := report_summary output_format results in
           total_count counts = valid_count counts + invalid_count counts
           /\ total_count counts = n_total
           /\ valid_count counts = n_valid
           /\ invalid_count counts = n_invalid)
    /\ (exists (report : string) (s' : Sys) (rest : string),
           generate_report w results "text" None s = (Val report, s')
           /\ report
              = repeat_str "=" 80 ++ nl
                ++ "CCD VALIDATION REPORT" ++ nl
                ++ repeat_str "=" 80 ++ nl
                ++ "Generated: " ++ strftime_YmdHMS stamp ++ nl
                ++ "Total files validated: " ++ str_of_int n_total ++ nl
                ++ "Valid: " ++ str_of_int n_valid ++ nl
                ++ "Invalid: " ++ str_of_int n_invalid ++ nl
                ++ repeat_str "=" 80 ++ nl
                ++ rest)
    /\ (exists (report : string) (s' : Sys)
               (decoded : list (string * pyval)),
           generate_report w results "json" None s = (Val report, s')
           /\ json_loads report = Some (PyDict decoded)
           /\ lookup "summary" decoded
              = Some (PyDict [("total", PyInt n_total);
                              ("valid", PyInt n_valid);
                              ("invalid", PyInt n_invalid)]))
    /\ (exists (report : string) (s' : Sys) (rest : string),
           generate_report w results "html" None s = (Val report, s')
           /\ report
              = html_preamble
                ++ "    <div class=" ++ dq ++ "summary" ++ dq ++ ">" ++ nl
                ++ "        <p><strong>Generated:</strong> "
                ++ strftime_YmdHMS stamp ++ "</p>" ++ nl
                ++ "        <p><strong>Total Files:</strong> "
                ++ str_of_int n_total ++ "</p>" ++ nl
                ++ "        <p><strong>Valid:</strong> <span style=" ++ dq
                ++ "color: green;" ++ dq ++ ">" ++ str_of_int n_valid
                ++ "</span></p>" ++ nl
                ++ "        <p><strong>Invalid:</strong> <span style=" ++ dq
                ++ "color: red;" ++ dq ++ ">" ++ str_of_int n_invalid
                ++ "</span></p>" ++ nl
                ++ "    </div>" ++ nl
                ++ rest).
Proof.
  intros w results s n_total n_valid n_invalid stamp.
  pose proof (number_valid_invalid results) as Hsum.
  assert (Hvalid : sum_ones valid results = n_valid)
    by apply sum_ones_filter.
  assert (Hinvalid : len results - sum_ones valid results = n_invalid)
    by (rewrite Hvalid; unfold n_invalid, n_valid; lia).
  assert (Hcounted :
            sum_ones (fun r => negb (valid r)) results = n_invalid)
    by apply sum_ones_filter.
  split; [exact Hsum|]. split; [|split; [|split]].
  - intros output_format. unfold report_summary.
    destruct (String.eqb output_format "json");
      [|destruct (String.eqb output_format "html")];
      simpl; rewrite ?Hinvalid, ?Hvalid, ?Hcounted;
      unfold n_total, n_valid, n_invalid in *; repeat split; lia.
  - exists (join nl (text_report_lines stamp results)).
    eexists.
    exists (join nl ("" :: flat_map text_result_lines results)).
    split; [reflexivity|].
    unfold text_report_lines, text_summary.
    cbn [app total_count valid_count invalid_count].
    rewrite !join_cons, Hinvalid, Hvalid, ?append_assoc. reflexivity.
  - exists (json_dumps (json_report stamp results)).
    eexists. eexists.
    split; [reflexivity|]. split.
    + apply json_loads_dumps, json_report_well_keyed.
    + unfold json_summary, json_counts.
      cbn [total_count valid_count invalid_count].
      rewrite Hvalid, Hcounted. reflexivity.
  - exists (html_report stamp results).
    eexists.
    exists (concat_str (map html_result results)
            ++ nl ++ "</body>" ++ nl ++ "</html>").
    split; [reflexivity|].
    unfold html_report, html_summary_block, html_summary.
    cbn [total_count valid_count invalid_count].
    rewrite Hinvalid, Hvalid, ?append_assoc. reflexivity.
Qed.

(** * Further properties *)

(** ** [validate_file] *)

(** An accepted document gives a valid, well-formed result without errors,
    whatever the engine left in its log; the engine was invoked once. *)
Theorem accepted_document_is_valid :
  forall (w : World) (schema : XMLSchema) (p : pathlike) (s : Sys)
         (doc : document) (log : list LogEntry),
    open_rb w (str_of_pathlike p) = None ->
    parse w (str_of_pathlike p) = inl doc ->
    schema_validate schema doc = Verdict true log ->
    exists (r : ValidationResult) (s' : Sys),
      validate_file w schema p s = (Val r, s')
      /\ valid r = true
      /\ well_formed r = true
      /\ errors r = []
      /\ schema_invocations (trace s') = S (schema_invocations (trace s)).
Proof.
  intros w schema p s doc log Hopen Hparse Hverdict.
  unfold_validate. rewrite Hopen. simpl. rewrite Hparse. simpl.
  rewrite Hverdict. simpl.
  eexists; eexists; split; [reflexivity|]. simpl. repeat split.
  unfold schema_invocations. rewrite <- !app_assoc, filter_app. simpl.
  rewrite length_app. simpl. lia.
Qed.

Lemma accepted_document_is_valid_witness :
  exists (r : ValidationResult) (s' : Sys),
    validate_file sample_world accepting_schema (AsStr "a.xml") initial_sys
    = (Val r, s')
    /\ valid r = true
    /\ well_formed r = true
    /\ errors r = []
    /\ schema_invocations (trace s') = 1%nat.
Proof.
  apply (accepted_document_is_valid sample_world accepting_schema
           (AsStr "a.xml") initial_sys (Document "a.xml") []);
    reflexivity.
Defined.

(** A rejected document gives a well-formed, invalid result whose errors are
    the diagnostics of the engine's log, one [SCHEMA_VALIDATION_ERROR] record
    each, in the order of the log, with message, line, column, domain and
    level. *)
Theorem rejected_document_lists_the_log :
  forall (w : World) (schema : XMLSchema) (p : pathlike) (s : Sys)
         (doc : document) (log : list LogEntry),
    open_rb w (str_of_pathlike p) = None ->
    parse w (str_of_pathlike p) = inl doc ->
    schema_validate schema doc = Verdict false log ->
    exists (r : ValidationResult) (s' : Sys),
      validate_file w schema p s = (Val r, s')
      /\ valid r = false
      /\ well_formed r = true
      /\ errors r
         = map (fun d => SchemaValidationError (log_message d) (log_line d)
                           (log_column d) (log_domain_name d)
                           (log_level_name d)) log
      /\ count_type "SCHEMA_VALIDATION_ERROR" (errors r) = List.length log.
Proof.
  intros w schema p s doc log Hopen Hparse Hverdict.
  unfold_validate. rewrite Hopen. simpl. rewrite Hparse. simpl.
  rewrite Hverdict. simpl. rewrite for_each_record_schema_error. simpl.
  eexists; eexists; split; [reflexivity|]. simpl. repeat split.
  unfold count_type. clear. induction log as [|d log IH]; simpl; congruence.
Qed.

Lemma rejected_document_lists_the_log_witness :
  exists (r : ValidationResult) (s' : Sys),
    validate_file sample_world rejecting_schema (AsStr "a.xml") initial_sys
    = (Val r, s')
    /\ valid r = false
    /\ well_formed r = true
    /\ errors r
       = [SchemaValidationError
            "Element 'id': This element is not expected." 4 0
            "SCHEMASV" "ERROR"]
    /\ count_type "SCHEMA_VALIDATION_ERROR" (errors r) = 1%nat.
Proof.
  apply (rejected_document_lists_the_log sample_world rejecting_schema
           (AsStr "a.xml") initial_sys (Document "a.xml") [sample_entry]);
    reflexivity.
Defined.

(** The errors of a result are of one kind: diagnostics of the schema engine
    on a well-formed document, or else a single record of another type on a
    result that is not valid. The two never mix. *)
Theorem errors_are_of_one_kind :
  forall (w : World) (schema : XMLSchema) (p : pathlike) (s s' : Sys)
         (r : ValidationResult),
    validate_file w schema p s = (Val r, s') ->
    (well_formed r = true
     /\ Forall (fun e => error_type e = "SCHEMA_VALIDATION_ERROR") (errors r))
    \/ (valid r = false
        /\ exists e, errors r = [e]
                     /\ error_type e <> "SCHEMA_VALIDATION_ERROR").
Proof.
  intros w schema p s s' r Hrun. revert Hrun.
  unfold_validate.
  by_outcome w schema (str_of_pathlike p);
    intros [= <- <-]; simpl;
    try (right; split; [reflexivity|];
         eexists; split; [reflexivity|]; discriminate).
  - left. split; [reflexivity|constructor].
  - left. split; [reflexivity|].
    apply Forall_forall. intros e He. apply in_map_iff in He.
    now destruct He as (d & <- & _).
Qed.

Lemma errors_are_of_one_kind_witness :
  (well_formed (mkResult "missing.xml" false false
                  [FileNotFound "File not found: missing.xml"]
                  "2024-05-01T10:00:00") = true
   /\ Forall (fun e => error_type e = "SCHEMA_VALIDATION_ERROR")
             [FileNotFound "File not found: missing.xml"])
  \/ (valid (mkResult "missing.xml" false false
               [FileNotFound "File not found: missing.xml"]
               "2024-05-01T10:00:00") = false
      /\ exists e, [FileNotFound "File not found: missing.xml"] = [e]
                   /\ error_type e <> "SCHEMA_VALIDATION_ERROR").
Proof.
  apply (errors_are_of_one_kind sample_world rejecting_schema
           (AsStr "missing.xml") initial_sys
           (mkSys 1 [] [EvOpen "missing.xml"])).
  reflexivity.
Defined.

(** [validate_file] reads the clock once and touches nothing but its file:
    it opens it first, parses it at most once and invokes the engine at
    most once, on the parsed document; it prints nothing and writes
    nothing. *)
Theorem validate_file_only_reads_its_file :
  forall (w : World) (schema : XMLSchema) (p : pathlike) (s s' : Sys)
         (r : ValidationResult),
    validate_file w schema p s = (Val r, s') ->
    ticks s' = S (ticks s)
    /\ exists rest : list event,
         trace s' = (trace s ++ EvOpen (str_of_pathlike p) :: rest)%list
         /\ (rest = []
             \/ rest = [EvParse (str_of_pathlike p)]
             \/ exists doc,
                  parse w (str_of_pathlike p) = inl doc
                  /\ rest = [EvParse (str_of_pathlike p);
                             EvSchemaValidate doc]).
Proof.
  intros w schema p s s' r Hrun. revert Hrun.
  unfold_validate.
  by_outcome w schema (str_of_pathlike p);
    intros [= <- <-]; simpl; (split; [reflexivity|]);
    rewrite <- ?app_assoc; simpl;
    eexists; (split; [reflexivity|]); eauto.
Qed.

Lemma validate_file_only_reads_its_file_witness :
  ticks (mkSys 1 [] [EvOpen "bad.xml"; EvParse "bad.xml"]) = 1%nat
  /\ exists rest : list event,
       trace (mkSys 1 [] [EvOpen "bad.xml"; EvParse "bad.xml"])
       = (trace initial_sys ++ EvOpen "bad.xml" :: rest)%list
       /\ (rest = []
           \/ rest = [EvParse "bad.xml"]
           \/ exists doc,
                parse sample_world "bad.xml" = inl doc
                /\ rest = [EvParse "bad.xml"; EvSchemaValidate doc]).
Proof.
  apply (validate_file_only_reads_its_file sample_world rejecting_schema
           (AsStr "bad.xml") initial_sys
           (mkSys 1 [] [EvOpen "bad.xml"; EvParse "bad.xml"])
           (mkResult "bad.xml" false false
              [XmlSyntaxError "Opening and ending tag mismatch" (Some 3)]
              "2024-05-01T10:00:00")).
  reflexivity.
Defined.

(** The result of a validation owes nothing to earlier validations: it is
    the same from any two states with the same clock, whatever the engine's
    log held and whatever happened before. *)
Theorem validate_file_ignores_history :
  forall (w : World) (schema : XMLSchema) (p : pathlike) (s1 s2 : Sys),
    ticks s1 = ticks s2 ->
    fst (validate_file w schema p s1) = fst (validate_file w schema p s2).
Proof.
  intros w schema p s1 s2 Hticks.
  unfold_validate. rewrite Hticks.
  by_outcome w schema (str_of_pathlike p);
    rewrite ?for_each_record_schema_error; reflexivity.
Qed.

Lemma validate_file_ignores_history_witness :
  fst (validate_file sample_world rejecting_schema (AsStr "a.xml")
         (mkSys 0 [sample_entry; sample_entry] [EvPrint "earlier"]))
  = fst (validate_file sample_world rejecting_schema (AsStr "a.xml")
           initial_sys).
Proof.
  apply (validate_file_ignores_history sample_world rejecting_schema
           (AsStr "a.xml")
           (mkSys 0 [sample_entry; sample_entry] [EvPrint "earlier"])
           initial_sys).
  reflexivity.
Defined.

(** ** [validate_directory] *)

(** When no entry in reach has a name ending in [.xml], the directory walk
    returns no result and only prints its notice: no file is opened and the
    engine is not invoked. *)
Theorem no_candidate_gives_notice :
  forall (w : World) (schema : XMLSchema) (directory_path : string)
         (recursive : bool) (s : Sys),
    (forall rel e,
        reaches (listdir w (Path.to_str (Path.of_str directory_path))) rel e ->
        (recursive = false -> rel = [entry_name e]) ->
        ~ ends_with ".xml" (entry_name e)) ->
    validate_directory w schema directory_path recursive s
    = (Val [],
       mkSys (ticks s) (schema_error_log s)
             (trace s ++ [EvPrint ("No XML files found in " ++ directory_path
                                   ++ nl)])).
Proof.
  intros w schema directory_path recursive s Hnone.
  assert (Hglob : glob w (Path.of_str directory_path)
                       (glob_pattern recursive) = []).
  { unfold glob.
    destruct (glob_relative w (Path.of_str directory_path)
                            (glob_pattern recursive))
      as [|rel rels] eqn:Hrels; [reflexivity|].
    exfalso.
    assert (Hin : In rel (glob_relative w (Path.of_str directory_path)
                                        (glob_pattern recursive)))
      by (rewrite Hrels; now left).
    destruct recursive.
    - apply glob_relative_deep in Hin. destruct Hin as (e & Hreach & Hm).
      apply (Hnone rel e Hreach); [discriminate|now apply fnmatch_xml].
    - rewrite glob_relative_flat in Hin. apply in_map_iff in Hin.
      destruct Hin as (e & <- & He). apply filter_In in He.
      destruct He as [Hin Hm].
      apply (Hnone [entry_name e] e); [now constructor|reflexivity|].
      now apply fnmatch_xml. }
  unfold validate_directory, with_local. rewrite Hglob. reflexivity.
Qed.

Lemma no_candidate_gives_notice_witness :
  validate_directory sample_world rejecting_schema "elsewhere" true
                     initial_sys
  = (Val [],
     mkSys 0 [] [EvPrint ("No XML files found in " ++ "elsewhere" ++ nl)]).
Proof.
  apply (no_candidate_gives_notice sample_world rejecting_schema
           "elsewhere" true initial_sys).
  intros rel e Hreach. inversion Hreach as [? ? Hin|? ? ? ? ? Hin _];
    simpl in Hin; contradiction.
Defined.



(** Searching recursively loses nothing: every file reported without
    [recursive] is reported with it. *)
Theorem recursive_walk_includes_flat_walk :
  forall (w : World) (schema : XMLSchema) (directory_path : string)
         (s1 s2 : Sys),
  exists (flat deep : list ValidationResult) (s1' s2' : Sys),
    validate_directory w schema directory_path false s1 = (Val flat, s1')
    /\ validate_directory w schema directory_path true s2 = (Val deep, s2')
    /\ forall path, In path (map file flat) -> In path (map file deep).
Proof.
  intros w schema directory_path s1 s2.
  destruct (validate_directory_files w schema directory_path false s1)
    as (flat & s1' & Hflat & Hfiles1).
  destruct (validate_directory_files w schema directory_path true s2)
    as (deep & s2' & Hdeep & Hfiles2).
  exists flat, deep, s1', s2'. split; [exact Hflat|]. split; [exact Hdeep|].
  intros path. rewrite Hfiles1, Hfiles2, !in_map_iff.
  intros (rel & <- & Hin). exists rel. split; [reflexivity|].
  rewrite glob_relative_flat in Hin. apply in_map_iff in Hin.
  destruct Hin as (e & <- & He). apply filter_In in He.
  apply glob_relative_deep. exists e. split; [|apply He].
  constructor. apply He.
Qed.

Lemma stdout_app (t u : list event) :
  stdout (t ++ u) = stdout t ++ stdout u.
Proof.
  induction t as [|[] t IH]; simpl; try exact IH; [reflexivity|].
  now rewrite IH, append_assoc.
Qed.

(** [validate_file] prints nothing. *)
Lemma validate_file_silent (w : World) (schema : XMLSchema) (p : pathlike)
    (s s' : Sys) (r : ValidationResult) :
  validate_file w schema p s = (Val r, s') ->
  stdout (trace s') = stdout (trace s).
Proof.
  revert s' r. unfold_validate.
  by_outcome w schema (str_of_pathlike p);
    intros s' r [= <- <-]; simpl; rewrite !stdout_app; simpl;
    now rewrite ?append_nil_r.
Qed.

Lemma validate_one_prints (w : World) (schema : XMLSchema) :
  forall (xml_file : Path.t) (acc : list ValidationResult) (s : Sys),
  exists (r : ValidationResult) (s' : Sys),
    validate_one w schema xml_file (acc, s) = (Val tt, ((acc ++ [r])%list, s'))
    /\ stdout (trace s') = stdout (trace s) ++ progress_line (xml_file, r).
Proof.
  intros xml_file acc s.
  unfold validate_one, bind, lift. simpl.
  match goal with
  | |- context [validate_file w schema (AsPath xml_file) ?st] =>
      destruct (validate_file_returns w schema (AsPath xml_file) st)
        as (r & s1 & Hrun & _);
      pose proof (validate_file_silent w schema _ st s1 r Hrun) as Hsilent
  end.
  rewrite Hrun. simpl. simpl in Hsilent.
  rewrite stdout_app in Hsilent. simpl in Hsilent.
  exists r.
  destruct (valid r); [|destruct (well_formed r)];
    unfold print, print_end, emit, modify, modify_local; simpl;
    eexists; (split; [reflexivity|]); simpl;
    rewrite stdout_app, Hsilent; simpl;
    rewrite ?append_nil_r, ?append_assoc; simpl;
    rewrite ?append_nil_r, ?append_assoc; reflexivity.
Qed.

Lemma validate_loop_prints (w : World) (schema : XMLSchema) :
  forall (files : list Path.t) (acc : list ValidationResult) (s : Sys),
  exists (rs : list ValidationResult) (s' : Sys),
    for_each files (validate_one w schema) (acc, s)
    = (Val tt, ((acc ++ rs)%list, s'))
    /\ List.length rs = List.length files
    /\ stdout (trace s')
       = stdout (trace s)
         ++ fold_right append "" (map progress_line (combine files rs)).
Proof.
  induction files as [|path files IH]; intros acc s.
  - exists [], s. simpl. unfold ret.
    now rewrite app_nil_r, append_nil_r.
  - destruct (validate_one_prints w schema path acc s)
      as (r & s1 & Hone & Hout1).
    destruct (IH (acc ++ [r])%list s1) as (rs & s2 & Hrest & Hlen & Hout2).
    exists (r :: rs), s2. simpl. unfold bind. rewrite Hone, Hrest.
    rewrite <- app_assoc. simpl. split; [reflexivity|].
    split; [now rewrite Hlen|].
    now rewrite Hout2, Hout1, append_assoc.
Qed.

(** The progress output of a directory walk with candidates is a header
    with their number, then one line per file in order: its name followed
    by VALID, INVALID with the number of errors, or NOT WELL-FORMED,
    according to the result returned for it. Nothing else is printed. *)
Theorem progress_output_follows_results :
  forall (w : World) (schema : XMLSchema) (directory_path : string)
         (recursive : bool) (s : Sys),
    let paths :=
      glob w (Path.of_str directory_path) (glob_pattern recursive) in
    paths <> [] ->
    exists (results : list ValidationResult) (s' : Sys),
      validate_directory w schema directory_path recursive s
      = (Val results, s')
      /\ List.length results = List.length paths
      /\ stdout (trace s')
         = stdout (trace s)
           ++ nl ++ "Validating " ++ str_of_int (len paths) ++ " file(s)..."
           ++ nl ++ nl
           ++ fold_right append ""
                (map progress_line (combine paths results)).
Proof.
  intros w schema directory_path recursive s paths Hpaths.
  unfold validate_directory, with_local. fold paths.
  destruct paths as [|path files] eqn:E; [contradiction|].
  unfold bind, lift. simpl snd. simpl fst.
  unfold print, print_end, emit, modify. simpl fst. simpl snd.
  match goal with
  | |- context [for_each _ _ (?acc, ?st)] =>
      destruct (validate_loop_prints w schema (path :: files) acc st)
        as (rs & s1 & Hloop & Hlen & Hout)
  end.
  rewrite Hloop. simpl.
  exists rs, s1. split; [reflexivity|]. split; [exact Hlen|].
  rewrite Hout. simpl trace. rewrite stdout_app. simpl stdout.
  rewrite !append_assoc, ?append_nil_r. simpl.
  rewrite !append_assoc. reflexivity.
Qed.

Lemma progress_output_follows_results_witness :
  exists (results : list ValidationResult) (s' : Sys),
    validate_directory sample_world rejecting_schema "docs" false initial_sys
    = (Val results, s')
    /\ List.length results
       = List.length (glob sample_world (Path.of_str "docs")
                           (glob_pattern false))
    /\ stdout (trace s')
       = stdout (trace initial_sys)
         ++ nl ++ "Validating "
         ++ str_of_int (len (glob sample_world (Path.of_str "docs")
                                  (glob_pattern false)))
         ++ " file(s)..." ++ nl ++ nl
         ++ fold_right append ""
              (map progress_line
                   (combine (glob sample_world (Path.of_str "docs")
                                  (glob_pattern false)) results)).
Proof.
  apply (progress_output_follows_results sample_world rejecting_schema
           "docs" false initial_sys).
  discriminate.
Defined.

(** ** [generate_report] *)

(** A format other than [json] and [html] gives the text report, and an
    output path that is absent or empty sends it to the standard output:
    the report returned is the text printed, after one reading of the
    clock. *)
Theorem report_falls_back_to_text_on_stdout :
  forall (w : World) (results : list ValidationResult)
         (output_format : string) (output_file : option string) (s : Sys),
    output_format <> "json" ->
    output_format <> "html" ->
    output_file = None \/ output_file = Some "" ->
    generate_report w results output_format output_file s
    = (Val (join nl (text_report_lines (clock w (ticks s)) results)),
       mkSys (S (ticks s)) (schema_error_log s)
             (trace s
              ++ [EvPrint (join nl (text_report_lines (clock w (ticks s))
                                                     results) ++ nl)])).
Proof.
  intros w results output_format output_file s Hjson Hhtml Hout.
  unfold generate_report.
  apply String.eqb_neq in Hjson, Hhtml. rewrite Hjson, Hhtml.
  assert (Hgiven : given output_file = false)
    by (destruct Hout as [-> | ->]; reflexivity).
  rewrite Hgiven. reflexivity.
Qed.

Lemma report_falls_back_to_text_on_stdout_witness :
  generate_report sample_world [] "xml" (Some "") initial_sys
  = (Val (join nl (text_report_lines (clock sample_world 0) [])),
     mkSys 1 []
           [EvPrint (join nl (text_report_lines (clock sample_world 0) [])
                     ++ nl)]).
Proof.
  apply (report_falls_back_to_text_on_stdout sample_world [] "xml"
           (Some "") initial_sys).
  - discriminate.
  - discriminate.
  - now right.
Defined.

(** With an output path, the file receives exactly the report returned and
    a confirmation is printed; if the file cannot be written the exception
    leaves [generate_report] and nothing is written or printed. *)
Theorem report_file_holds_the_report :
  forall (w : World) (results : list ValidationResult)
         (output_format path : string) (s : Sys),
    path <> "" ->
    match open_w w path with
    | None =>
        exists (report : string) (s' : Sys),
          generate_report w results output_format (Some path) s
          = (Val report, s')
          /\ trace s'
             = (trace s
                ++ [EvWrite path report;
                    EvPrint (nl ++ "Report saved to: " ++ path ++ nl)])%list
    | Some e =>
        exists s' : Sys,
          generate_report w results output_format (Some path) s
          = (Raise (Exc e), s')
          /\ trace s' = trace s
    end.
Proof.
  intros w results output_format path s Hpath.
  unfold generate_report, bind.
  destruct (report_renders w results output_format s) as (report & s1 & Hr).
  assert (Htrace : trace s1 = trace s).
  { revert Hr.
    destruct (String.eqb output_format "json");
      [|destruct (String.eqb output_format "html")];
      intros [= _ <-]; reflexivity. }
  rewrite Hr. apply String.eqb_neq in Hpath.
  unfold given, arg_value, write_file. rewrite Hpath. simpl negb. cbv iota.
  destruct (open_w w path) as [e|].
  - exists s1. split; [reflexivity|exact Htrace].
  - exists report. eexists. split; [reflexivity|].
    simpl. rewrite Htrace, <- app_assoc, ?append_assoc. reflexivity.
Qed.

Lemma report_file_holds_the_report_witness :
  exists s' : Sys,
    generate_report sample_world [] "html" (Some "/nowhere/report.txt")
                    initial_sys
    = (Raise (Exc (FileNotFoundError "[Errno 2] No such file or directory")),
       s')
    /\ trace s' = trace initial_sys.
Proof.
  apply (report_file_holds_the_report sample_world [] "html"
           "/nowhere/report.txt" initial_sys).
  discriminate.
Defined.

(** ** [main] *)

(** Without a file and without a directory (an empty string counts as
    absent) the run is a usage error: exit status 2, before the schema is
    loaded and before anything is printed. *)
Theorem no_source_is_a_usage_error :
  forall (w : World) (args : Args),
    given (arg_file args) = false ->
    given (arg_dir args) = false ->
    main w args initial_sys = (Raise (SystemExit 2), initial_sys)
    /\ exit_status (main w args) = 2.
Proof.
  intros w args Hfile Hdir.
  unfold exit_status, main, bind. rewrite Hfile, Hdir. simpl.
  split; reflexivity.
Qed.

Lemma no_source_is_a_usage_error_witness :
  main sample_world no_source_args initial_sys
  = (Raise (SystemExit 2), initial_sys)
  /\ exit_status (main sample_world no_source_args) = 2.
Proof.
  apply (no_source_is_a_usage_error sample_world no_source_args);
    reflexivity.
Defined.

(** When both a file and a directory are named, the file wins: the run
    validates that one file and no result comes from the directory. *)
Theorem file_takes_precedence_over_directory :
  forall (w : World) (args : Args) (compiled : XMLSchema),
    given (arg_file args) = true ->
    schema_of_args w args = inl compiled ->
    exists r : ValidationResult,
      processed_results w args = [r]
      /\ file r = arg_value (arg_file args)
      /\ result_of_file w compiled (AsStr (arg_value (arg_file args))) r.
Proof.
  intros w args compiled Hfile Hschema.
  unfold processed_results, schema_of_args in *.
  pose proof (new_validator_runs w (arg_xsd args) initial_sys) as Hload.
  rewrite Hschema in Hload. destruct Hload as (s0 & ->).
  unfold run_validation. rewrite Hfile. unfold bind. simpl schema.
  destruct (validate_file_returns w compiled
              (AsStr (arg_value (arg_file args))) s0)
    as (r & s1 & Hrun & Hpath).
  rewrite Hrun. exists r. split; [reflexivity|]. split; [exact Hpath|].
  now exists s0, s1.
Qed.

Lemma file_takes_precedence_over_directory_witness :
  exists r : ValidationResult,
    processed_results sample_world both_sources_args = [r]
    /\ file r = "a.xml"
    /\ result_of_file sample_world rejecting_schema (AsStr "a.xml") r.
Proof.
  apply (file_takes_precedence_over_directory sample_world
           both_sources_args rejecting_schema);
    reflexivity.
Defined.

(** A report that cannot be written makes the run fail: the exception
    leaves [main] uncaught and the exit status is 1, even when every
    processed file is valid. *)
Theorem unwritable_report_fails_the_run :
  forall (w : World) (args : Args) (compiled : XMLSchema) (e : exception),
    (given (arg_file args) || given (arg_dir args))%bool = true ->
    schema_of_args w args = inl compiled ->
    given (arg_output args) = true ->
    open_w w (arg_value (arg_output args)) = Some e ->
    fst (main w args initial_sys) = Raise (Exc e)
    /\ exit_status (main w args) = 1.
Proof.
  intros w args compiled e Hsource Hschema Hgiven Hopen.
  unfold schema_of_args in Hschema.
  unfold exit_status, main, bind.
  assert (Hgate :
            (negb (given (arg_file args)) && negb (given (arg_dir args)))%bool
            = false).
  { destruct (given (arg_file args)), (given (arg_dir args));
      simpl in *; congruence. }
  rewrite Hgate.
  change (ret tt initial_sys) with (@pair (Res unit) Sys (Val tt) initial_sys).
  cbv beta iota.
  pose proof (new_validator_runs w (arg_xsd args) initial_sys) as Hload.
  rewrite Hschema in Hload. destruct Hload as (s0 & ->).
  destruct (run_validation_runs w
              (mkValidator (Path.of_str (arg_xsd args)) compiled) args s0)
    as (results & s1 & -> & _).
  destruct (generate_report_runs w results (arg_format args)
              (arg_output args) s1)
    as [(e' & s2 & _ & Hopen' & ->)|(report & s2 & Hsink & _)].
  - rewrite Hopen in Hopen'. injection Hopen' as <-. split; reflexivity.
  - specialize (Hsink Hgiven). congruence.
Qed.

Lemma unwritable_report_fails_the_run_witness :
  fst (main accepting_world unwritable_report_args initial_sys)
  = Raise (Exc (FileNotFoundError "[Errno 2] No such file or directory"))
  /\ exit_status (main accepting_world unwritable_report_args) = 1.
Proof.
  apply (unwritable_report_fails_the_run accepting_world
           unwritable_report_args accepting_schema);
    reflexivity.
Defined.

Lemma invalid_result_gives_status_1 (w : World) (args : Args)
    (compiled : XMLSchema) :
  (given (arg_file args) || given (arg_dir args))%bool = true ->
  schema_of_args w args = inl compiled ->
  Exists (fun r => valid r = false) (processed_results w args) ->
  exit_status (main w args) = 1.
Proof.
  intros Hsource Hschema.
  unfold schema_of_args in Hschema.
  unfold processed_results, exit_status, main, bind.
  assert (Hgate :
            (negb (given (arg_file args)) && negb (given (arg_dir args)))%bool
            = false).
  { destruct (given (arg_file args)), (given (arg_dir args));
      simpl in *; congruence. }
  rewrite Hgate.
  change (ret tt initial_sys) with (@pair (Res unit) Sys (Val tt) initial_sys).
  cbv beta iota.
  pose proof (new_validator_runs w (arg_xsd args) initial_sys) as Hload.
  rewrite Hschema in Hload. destruct Hload as (s0 & ->).
  destruct (run_validation_runs w
              (mkValidator (Path.of_str (arg_xsd args)) compiled) args s0)
    as (results & s1 & -> & _).
  intros Hex. apply any_invalid_true in Hex.
  destruct (generate_report_runs w results (arg_format args)
              (arg_output args) s1)
    as [(e & s2 & _ & _ & ->)|(report & s2 & _ & ->)]; simpl.
  - reflexivity.
  - now rewrite Hex.
Qed.

(** Validating a single file that does not exist ends with exit status 1,
    the one result holding the single record [FILE_NOT_FOUND] that names
    the path. *)
Theorem missing_single_file_exits_with_1 :
  forall (w : World) (args : Args) (compiled : XMLSchema) (msg : string),
    given (arg_file args) = true ->
    schema_of_args w args = inl compiled ->
    open_rb w (arg_value (arg_file args)) = Some (FileNotFoundError msg) ->
    (exists r : ValidationResult,
        processed_results w args = [r]
        /\ valid r = false
        /\ errors r
           = [FileNotFound ("File not found: " ++ arg_value (arg_file args))])
    /\ exit_status (main w args) = 1.
Proof.
  intros w args compiled msg Hfile Hschema Hopen.
  assert (Hresults :
            exists r : ValidationResult,
              processed_results w args = [r]
              /\ valid r = false
              /\ errors r
                 = [FileNotFound
                      ("File not found: " ++ arg_value (arg_file args))]).
  { unfold processed_results, schema_of_args in *.
    pose proof (new_validator_runs w (arg_xsd args) initial_sys) as Hload.
    rewrite Hschema in Hload. destruct Hload as (s0 & ->).
    unfold run_validation. rewrite Hfile. unfold bind. simpl schema.
    unfold_validate. rewrite Hopen. simpl.
    eexists. repeat split. }
  split; [exact Hresults|].
  destruct Hresults as (r & Hr & Hvalid & _).
  apply (invalid_result_gives_status_1 w args compiled).
  - now rewrite Hfile.
  - exact Hschema.
  - rewrite Hr. constructor. exact Hvalid.
Qed.

Lemma missing_single_file_exits_with_1_witness :
  (exists r : ValidationResult,
      processed_results sample_world missing_file_args = [r]
      /\ valid r = false
      /\ errors r = [FileNotFound ("File not found: " ++ "missing.xml")])
  /\ exit_status (main sample_world missing_file_args) = 1.
Proof.
  apply (missing_single_file_exits_with_1 sample_world missing_file_args
           rejecting_schema "[Errno 2] No such file or directory");
    reflexivity.
Defined.

(** ** The text report *)


Lemma enumerate_In {A} (xs : list A) :
  forall (start i : Z) (x : A), In (i, x) (enumerate xs start) -> In x xs.
Proof.
  induction xs as [|y xs IH]; intros start i x H; [contradiction|].
  destruct H as [[= _ ->]|H]; [now left|right]. eauto.
Qed.




Lemma text_error_lines_position (i : Z) (e : ErrorRecord) (ln : string) :
  In ln (text_error_lines (i, e)) ->
  (truthy (error_get_line e) = false -> prefix "    Line: " ln = false)
  /\ (truthy (error_get_column e) = false ->
      prefix "    Column: " ln = false).
Proof.
  unfold text_error_lines. intros Hin. split; intros Hfalsy;
    rewrite Hfalsy in Hin.
  - destruct (truthy (error_get_column e)); simpl in Hin;
      repeat (destruct Hin as [<-|Hin]; [reflexivity|]); contradiction.
  - destruct (truthy (error_get_line e)); simpl in Hin;
      repeat (destruct Hin as [<-|Hin]; [reflexivity|]); contradiction.
Qed.

(** When no error of any result has a truthy line, the text report has no
    [Line:] entry at all; likewise for the column. Unknown positions, and
    positions equal to 0, leave no trace in the report. *)
Theorem text_report_omits_falsy_positions :
  forall (stamp : datetime) (results : list ValidationResult),
    ((forall r e, In r results -> In e (errors r) ->
                  truthy (error_get_line e) = false) ->
     forall ln, In ln (text_report_lines stamp results) ->
                prefix "    Line: " ln = false)
    /\ ((forall r e, In r results -> In e (errors r) ->
                     truthy (error_get_column e) = false) ->
        forall ln, In ln (text_report_lines stamp results) ->
                   prefix "    Column: " ln = false).
Proof.
  intros stamp results.
  assert (Hlines :
            forall ln, In ln (text_report_lines stamp results) ->
              (prefix "    Line: " ln = false
               /\ prefix "    Column: " ln = false)
              \/ exists r i e, In r results /\ In e (errors r)
                               /\ In ln (text_error_lines (i, e))).
  { intros ln Hin. unfold text_report_lines in Hin.
    apply in_app_or in Hin. destruct Hin as [Hin|Hin].
    - left. simpl in Hin.
      repeat (destruct Hin as [<-|Hin]; [split; reflexivity|]).
      contradiction.
    - apply in_flat_map in Hin. destruct Hin as (r & Hr & Hin).
      unfold text_result_lines in Hin.
      destruct (valid r); simpl in Hin.
      + left. repeat (destruct Hin as [<-|Hin]; [split; reflexivity|]).
        contradiction.
      + do 4 (destruct Hin as [<-|Hin]; [left; split; reflexivity|]).
        right. apply in_flat_map in Hin.
        destruct Hin as ([i e] & He & Hin).
        exists r, i, e. repeat split; auto.
        now apply enumerate_In in He. }
  split; intros Hfalsy ln Hin;
    (destruct (Hlines ln Hin) as [[Hl Hc]|(r & i & e & Hr & He & Hln)];
     [assumption|]);
    destruct (text_error_lines_position i e ln Hln) as [Hl Hc]; eauto.
Qed.

(** ** The HTML report *)




Lemma occurs_in_trans (x y z : string) :
  occurs_in x y -> occurs_in y z -> occurs_in x z.
Proof.
  intros (b1 & a1 & ->) (b2 & a2 & ->).
  exists (b2 ++ b1), (a1 ++ a2). now rewrite !append_assoc.
Qed.




